(** * hitch: a routing façade over httprouter

    A shallow embedding of [src/hitch.go].  The Go program keeps three kinds
    of mutable objects: [Hitch] structs reached through [*Hitch] pointers,
    the backing arrays of [[]Middleware] slices, and the [httprouter.Router]
    shared by every façade derived from one root.  They live in an explicit
    [Heap]; every method of the source is a computation in a small
    state-and-panic monad over it.  Handlers are computations of the same
    monad over the [World] a request is served in. *)

From Stdlib Require Import String Ascii List Arith Lia Bool.
From stdpp Require Import base list strings.

Open Scope string_scope.
Open Scope list_scope.
Open Scope nat_scope.

(** ** Package [strings] of the Go standard library *)

Module strings.

(** [s[lo:hi]] on a Go string. *)
Definition slice_str (s : string) (lo hi : nat) : string :=
  substring lo (hi - lo) s.

(** [len(s) >= len(prefix) && s[:len(prefix)] == prefix] *)
Definition HasPrefix (s prefix : string) : bool :=
  (String.length prefix <=? String.length s)
  && (slice_str s 0 (String.length prefix) =? prefix)%string.

(** [len(s) >= len(suffix) && s[len(s)-len(suffix):] == suffix] *)
Definition HasSuffix (s suffix : string) : bool :=
  (String.length suffix <=? String.length s)
  && (slice_str s (String.length s - String.length suffix) (String.length s)
      =? suffix)%string.

(** [if HasSuffix(s, suffix) { return s[:len(s)-len(suffix)] }; return s] *)
Definition TrimSuffix (s suffix : string) : string :=
  if HasSuffix s suffix
  then slice_str s 0 (String.length s - String.length suffix)
  else s.

End strings.

(** ** Computations that may panic *)

Inductive panic : Type :=
| NilDereference      (* a nil or dangling pointer was followed *)
| IndexOutOfRange     (* a slice was indexed at or beyond its length *)
| NilFuncCall         (* a nil func value was called *)
| RouterRejected.     (* the external router refused a registration *)

Inductive outcome (S A : Type) : Type :=
| Ok (a : A) (s : S)
| Panic (e : panic).
Arguments Ok {S A} a s.
Arguments Panic {S A} e.

Definition M (S A : Type) : Type := S -> outcome S A.

Definition ret {S A} (a : A) : M S A := fun s => Ok a s.

Definition bind {S A B} (c : M S A) (k : A -> M S B) : M S B :=
  fun s => match c s with
           | Ok a s' => k a s'
           | Panic e => Panic e
           end.

Definition throw {S A} (e : panic) : M S A := fun _ => Panic e.

Notation "x <- c ;; k" := (bind c (fun x => k))
  (at level 100, c at next level, right associativity).
Notation "c ;;; k" := (bind c (fun _ => k))
  (at level 100, right associativity).

(** ** Requests, response writers and handlers *)

(** [httprouter.Params]: the ordered key/value pairs of a match. *)
Definition httprouter_Params : Type := list (string * string).

(** The part of a [context.Context] this package reads: the value stored
    under [httprouter.ParamsKey], if any. *)
Record Context : Type := { ctx_params : option httprouter_Params }.

Definition Background : Context := {| ctx_params := None |}.

Record Request : Type := {
  Method : string;
  URLPath : string;
  ctx : Context
}.

(** What serving a request can touch: the request objects behind
    [*http.Request] pointers and, for every [http.ResponseWriter], the
    chunks written to it so far. *)
Record World : Type := {
  requests : list Request;
  responses : list (list string)
}.

Definition ResponseWriter : Type := nat.
Definition RequestPtr : Type := nat.

(** [http.Handler], by what [ServeHTTP(w, req)] does.  [http.HandlerFunc]
    is the same type: its [ServeHTTP] calls the function itself. *)
Definition Handler : Type := ResponseWriter -> RequestPtr -> M World unit.
Definition HandlerFunc : Type := Handler.

Definition ServeHTTP (h : Handler) (w : ResponseWriter) (req : RequestPtr)
  : M World unit := h w req.

(** [w.Write(data)] *)
Definition Write (w : ResponseWriter) (data : string) : M World unit :=
  fun s => match responses s !! w with
           | Some chunks =>
               Ok tt {| requests := requests s;
                        responses := <[w := chunks ++ [data]]> (responses s) |}
           | None => Panic NilDereference
           end.

(** [req.Context()] *)
Definition Request_Context (req : RequestPtr) : M World Context :=
  fun s => match requests s !! req with
           | Some r => Ok (ctx r) s
           | None => Panic NilDereference
           end.

(** [req.WithContext(c)]: a shallow copy of the request carrying [c]. *)
Definition Request_WithContext (req : RequestPtr) (c : Context)
  : M World RequestPtr :=
  fun s => match requests s !! req with
           | Some r =>
               Ok (length (requests s))
                  {| requests := requests s ++
                       [{| Method := Method r; URLPath := URLPath r; ctx := c |}];
                     responses := responses s |}
           | None => Panic NilDereference
           end.

(** The method names of package [net/http] that the source uses. *)
Module http.
Definition MethodGet : string := "GET".
Definition MethodPut : string := "PUT".
Definition MethodPost : string := "POST".
Definition MethodPatch : string := "PATCH".
Definition MethodDelete : string := "DELETE".
Definition MethodOptions : string := "OPTIONS".
End http.

(** ** The heap of the registration phase *)

(** [type Middleware func(next http.Handler) http.Handler].  A func value
    may be nil; calling it then panics. *)
Inductive Middleware : Type :=
| nilFunc
| Func (f : Handler -> Handler).

Definition call {S} (m : Middleware) (next : Handler) : M S Handler :=
  match m with
  | Func f => ret (f next)
  | nilFunc => throw NilFuncCall
  end.

(** A slice value: the backing array it points to (none for the nil
    slice), its length and its capacity.  The source never reslices, so
    every slice starts at the first cell of its array. *)
Record slice : Type := {
  s_arr : option nat;
  s_len : nat;
  s_cap : nat
}.

Definition nil_slice : slice := {| s_arr := None; s_len := 0; s_cap := 0 |}.

Record Route : Type := {
  route_method : string;
  route_path : string;
  route_handler : Handler
}.

(** [httprouter.Router], by the two things this package relies on: the
    flag set in [New] and the routes registered so far, oldest first. *)
Record httprouter_Router : Type := {
  HandleMethodNotAllowed : bool;
  routes : list Route
}.

(** [type Hitch struct { router *httprouter.Router; basePath string;
    middlewares []Middleware }] *)
Record Hitch : Type := {
  router : nat;
  basePath : string;
  middlewares : slice
}.

Record Heap : Type := {
  hitches : list Hitch;
  arrays : list (list Middleware);
  routers : list httprouter_Router
}.

Definition empty_heap : Heap := {| hitches := []; arrays := []; routers := [] |}.

Definition set_hitches (s : Heap) (hs : list Hitch) : Heap :=
  {| hitches := hs; arrays := arrays s; routers := routers s |}.
Definition set_arrays (s : Heap) (a : list (list Middleware)) : Heap :=
  {| hitches := hitches s; arrays := a; routers := routers s |}.
Definition set_routers (s : Heap) (rs : list httprouter_Router) : Heap :=
  {| hitches := hitches s; arrays := arrays s; routers := rs |}.

(** What the Go runtime leaves open: the capacity [append] picks when it
    has to reallocate, from the old capacity and the length needed.  The
    runtime never picks less than the length needed. *)
Class Runtime : Type := { growcap : nat -> nat -> nat }.

(** *** Slice builtins *)

Definition len (sl : slice) : nat := s_len sl.

(** The elements of a slice, read from its backing array. *)
Definition elems (sl : slice) : M Heap (list Middleware) :=
  match s_arr sl with
  | None => ret []
  | Some a =>
      fun s => match arrays s !! a with
               | Some cells => Ok (take (s_len sl) cells) s
               | None => Panic NilDereference
               end
  end.

(** The same, as a total function for statements: what a reader of the
    slice sees in heap [s]. *)
Definition contents (s : Heap) (sl : slice) : list Middleware :=
  match s_arr sl with
  | None => []
  | Some a => take (s_len sl) (default [] (arrays s !! a))
  end.

(** Writes [vs] into the cells [from, from + len vs) of the backing array. *)
Definition store (sl : slice) (from : nat) (vs : list Middleware) : M Heap unit :=
  match vs, s_arr sl with
  | [], _ => ret tt
  | _ :: _, None => throw NilDereference
  | _ :: _, Some a =>
      fun s => match arrays s !! a with
               | Some cells =>
                   Ok tt (set_arrays s
                     (<[a := take from cells ++ vs ++ drop (from + length vs) cells]>
                        (arrays s)))
               | None => Panic NilDereference
               end
  end.

(** [make([]Middleware, n)]: a fresh array of [n] nil funcs. *)
Definition make (n : nat) : M Heap slice :=
  fun s => Ok {| s_arr := Some (length (arrays s)); s_len := n; s_cap := n |}
              (set_arrays s (arrays s ++ [replicate n nilFunc])).

(** [copy(dst, src)]: copies [min(len(dst), len(src))] elements and
    returns that number. *)
Definition copy (dst src : slice) : M Heap nat :=
  xs <- elems src ;;
  let n := Nat.min (len dst) (len src) in
  store dst 0 (take n xs) ;;;
  ret n.

(** [append(sl, vs...)]: in place when the capacity suffices, into a fresh
    larger array otherwise. *)
Definition append `{Runtime} (sl : slice) (vs : list Middleware) : M Heap slice :=
  let need := len sl + length vs in
  if need <=? s_cap sl then
    store sl (len sl) vs ;;;
    ret {| s_arr := s_arr sl; s_len := need; s_cap := s_cap sl |}
  else
    xs <- elems sl ;;
    let c := Nat.max need (growcap (s_cap sl) need) in
    fun s => Ok {| s_arr := Some (length (arrays s)); s_len := need; s_cap := c |}
                (set_arrays s
                   (arrays s ++ [xs ++ vs ++ replicate (c - need) nilFunc])).

(** [sl[i]] *)
Definition index (sl : slice) (i : nat) : M Heap Middleware :=
  if i <? len sl then
    xs <- elems sl ;;
    match xs !! i with
    | Some m => ret m
    | None => throw NilDereference
    end
  else throw IndexOutOfRange.

(** [middleware[i]] on the variadic parameter, which the source only reads:
    it is represented by its elements. *)
Definition index_arg (middleware : list Middleware) (i : nat) : M Heap Middleware :=
  match middleware !! i with
  | Some m => ret m
  | None => throw IndexOutOfRange
  end.

(** *** Pointers to [Hitch] structs *)

(** [*h] *)
Definition deref (h : nat) : M Heap Hitch :=
  fun s => match hitches s !! h with
           | Some hv => Ok hv s
           | None => Panic NilDereference
           end.

(** [&Hitch{...}] *)
Definition new_Hitch (hv : Hitch) : M Heap nat :=
  fun s => Ok (length (hitches s)) (set_hitches s (hitches s ++ [hv])).

(** [h.middlewares = sl] *)
Definition assign_middlewares (h : nat) (sl : slice) : M Heap unit :=
  fun s => match hitches s !! h with
           | Some hv =>
               Ok tt (set_hitches s
                 (<[h := {| router := router hv; basePath := basePath hv;
                            middlewares := sl |}]> (hitches s)))
           | None => Panic NilDereference
           end.

(** ** The external router *)

Module httprouter.

(** What the source takes from [github.com/julienschmidt/httprouter]
    without fixing it: the value [New] gives the flag, which
    registrations the router refuses (it panics on them), and how a
    registered pattern matches a request path and binds parameters. *)
Class Engine : Type := {
  default_HandleMethodNotAllowed : bool;
  accepts : list Route -> string -> string -> bool;
  match_path : string -> string -> option httprouter_Params
}.

(** Modelled from the spec: [httprouter.New], which is not under src/;
    "a freshly created external router instance" with no route yet. *)
Definition New `{Engine} : M Heap nat :=
  fun s => Ok (length (routers s))
              (set_routers s
                 (routers s ++
                    [{| HandleMethodNotAllowed := default_HandleMethodNotAllowed;
                        routes := [] |}])).

(** [r.HandleMethodNotAllowed = b] *)
Definition assign_HandleMethodNotAllowed (r : nat) (b : bool) : M Heap unit :=
  fun s => match routers s !! r with
           | Some rv =>
               Ok tt (set_routers s
                 (<[r := {| HandleMethodNotAllowed := b; routes := routes rv |}]>
                    (routers s)))
           | None => Panic NilDereference
           end.

(** Modelled from the spec: [Router.Handler], which is not under src/;
    "registration of a handler under an exact (method, path) pair", with
    every registration error "reported by the external router". *)
Definition Handler `{Engine} (r : nat) (method path : string) (handler : Handler)
  : M Heap unit :=
  fun s => match routers s !! r with
           | Some rv =>
               if accepts (routes rv) method path then
                 Ok tt (set_routers s
                   (<[r := {| HandleMethodNotAllowed := HandleMethodNotAllowed rv;
                              routes := routes rv ++
                                [{| route_method := method; route_path := path;
                                    route_handler := handler |}] |}]>
                      (routers s)))
               else Panic RouterRejected
           | None => Panic NilDereference
           end.

(** Modelled from the spec: [ParamsFromContext], which is not under src/;
    the bindings "attached to the request's context during dispatch", and
    "an empty collection if none were attached". *)
Definition ParamsFromContext (c : Context) : httprouter_Params :=
  match ctx_params c with
  | Some ps => ps
  | None => []
  end.

Inductive Status : Type := Served | NotFound | MethodNotAllowed.

(** The first route registered for [method] whose pattern matches [path]. *)
Fixpoint lookup `{Engine} (rs : list Route) (method path : string)
  : option (Route * httprouter_Params) :=
  match rs with
  | [] => None
  | rt :: rs' =>
      if (route_method rt =? method)%string then
        match match_path (route_path rt) path with
        | Some ps => Some (rt, ps)
        | None => lookup rs' method path
        end
      else lookup rs' method path
  end.

(** Whether some route, of whatever method, matches [path]. *)
Definition path_registered `{Engine} (rs : list Route) (path : string) : bool :=
  existsb (fun rt => bool_decide (is_Some (match_path (route_path rt) path))) rs.

(** Modelled from the spec: [Router.ServeHTTP], which is not under
    src/; "dispatch that attaches matched parameter bindings to the
    request's context", and "a configuration flag controlling whether an
    unmatched method on a matched path yields not found vs method not
    allowed". *)
Definition ServeHTTP `{Engine} (rv : httprouter_Router)
    (w : ResponseWriter) (req : RequestPtr) : M World Status :=
  fun s => match requests s !! req with
           | None => Panic NilDereference
           | Some r =>
               match lookup (routes rv) (Method r) (URLPath r) with
               | Some (rt, ps) =>
                   (req' <- Request_WithContext req {| ctx_params := Some ps |} ;;
                    route_handler rt w req' ;;;
                    ret Served) s
               | None =>
                   if HandleMethodNotAllowed rv
                      && path_registered (routes rv) (URLPath r)
                   then Ok MethodNotAllowed s
                   else Ok NotFound s
               end
           end.

End httprouter.

(** ** Package [hitch] *)

(** [func (h *Hitch) path(p string) string], on the struct [h] points to. *)
Definition path (hv : Hitch) (p : string) : string :=
  let base := strings.TrimSuffix (basePath hv) "/" in
  let p := if negb (p =? "")%string && negb (strings.HasPrefix p "/")
           then "/" +:+ p
           else p in
  base +:+ p.

(** [func New() *Hitch] *)
Definition New `{httprouter.Engine} : M Heap nat :=
  r <- httprouter.New ;;
  httprouter.assign_HandleMethodNotAllowed r false ;;;
  new_Hitch {| router := r; basePath := ""; middlewares := nil_slice |}.

(** [func (h *Hitch) Router() *httprouter.Router] *)
Definition Router (h : nat) : M Heap nat :=
  hv <- deref h ;;
  ret (router hv).

(** [func (h *Hitch) SubPath(path string) *Hitch].  Nothing between the
    reads of [h]'s fields writes to a [Hitch], so [h] is followed once. *)
Definition SubPath (h : nat) (p : string) : M Heap nat :=
  hv <- deref h ;;
  middlewaresCopy <-
    (if 0 <? len (middlewares hv) then
       c <- make (len (middlewares hv)) ;;
       copy c (middlewares hv) ;;;
       ret c
     else ret nil_slice) ;;
  new_Hitch {| router := router hv;
               basePath := path hv p;
               middlewares := middlewaresCopy |}.

(** [func (h *Hitch) WithMiddleware(middleware ...Middleware) *Hitch] *)
Definition WithMiddleware `{Runtime} (h : nat) (middleware : list Middleware)
  : M Heap nat :=
  newHitch <- SubPath h "" ;;
  nv <- deref newHitch ;;
  sl <- append (middlewares nv) middleware ;;
  assign_middlewares newHitch sl ;;;
  ret newHitch.

(** The closure [WithHandlerMiddleware] builds around [handler]. *)
Definition handlerMiddleware (handler : Handler) : Middleware :=
  Func (fun next : Handler =>
          fun w req =>
            ServeHTTP handler w req ;;;
            ServeHTTP next w req).

(** [func (h *Hitch) WithHandlerMiddleware(handler http.Handler) *Hitch] *)
Definition WithHandlerMiddleware `{Runtime} (h : nat) (handler : Handler)
  : M Heap nat :=
  WithMiddleware h [handlerMiddleware handler].

(** [for i := len(middleware) - 1; i >= 0; i-- { handler = middleware[i](handler) }],
    entered with [n = i + 1]. *)
Fixpoint wrap_args (middleware : list Middleware) (n : nat) (handler : Handler)
  : M Heap Handler :=
  match n with
  | 0 => ret handler
  | S i =>
      m <- index_arg middleware i ;;
      handler' <- call m handler ;;
      wrap_args middleware i handler'
  end.

(** [for i := len(h.middlewares) - 1; i >= 0; i-- { handler = h.middlewares[i](handler) }],
    entered with [n = i + 1]. *)
Fixpoint wrap_own (h : nat) (n : nat) (handler : Handler) : M Heap Handler :=
  match n with
  | 0 => ret handler
  | S i =>
      hv <- deref h ;;
      m <- index (middlewares hv) i ;;
      handler' <- call m handler ;;
      wrap_own h i handler'
  end.

(** [func (h *Hitch) Handle(method, path string, handler http.Handler,
    middleware ...Middleware)] *)
Definition Handle `{httprouter.Engine} (h : nat) (method p : string)
    (handler : Handler) (middleware : list Middleware) : M Heap unit :=
  handler <- wrap_args middleware (length middleware) handler ;;
  hv <- deref h ;;
  handler <- wrap_own h (len (middlewares hv)) handler ;;
  hv <- deref h ;;
  httprouter.Handler (router hv) method (path hv p) handler.

Definition HandleFunc `{httprouter.Engine} (h : nat) (method p : string)
    (handler : HandlerFunc) (middleware : list Middleware) : M Heap unit :=
  Handle h method p handler middleware.

Definition GET `{httprouter.Engine} (h : nat) (p : string)
    (handler : HandlerFunc) (middleware : list Middleware) : M Heap unit :=
  Handle h http.MethodGet p handler middleware.

Definition PUT `{httprouter.Engine} (h : nat) (p : string)
    (handler : HandlerFunc) (middleware : list Middleware) : M Heap unit :=
  Handle h http.MethodPut p handler middleware.

Definition POST `{httprouter.Engine} (h : nat) (p : string)
    (handler : HandlerFunc) (middleware : list Middleware) : M Heap unit :=
  Handle h http.MethodPost p handler middleware.

Definition PATCH `{httprouter.Engine} (h : nat) (p : string)
    (handler : HandlerFunc) (middleware : list Middleware) : M Heap unit :=
  Handle h http.MethodPatch p handler middleware.

Definition DELETE `{httprouter.Engine} (h : nat) (p : string)
    (handler : HandlerFunc) (middleware : list Middleware) : M Heap unit :=
  Handle h http.MethodDelete p handler middleware.

Definition OPTIONS `{httprouter.Engine} (h : nat) (p : string)
    (handler : HandlerFunc) (middleware : list Middleware) : M Heap unit :=
  Handle h http.MethodOptions p handler middleware.

(** [func Params(req *http.Request) httprouter.Params] *)
Definition Params (req : RequestPtr) : M World httprouter_Params :=
  c <- Request_Context req ;;
  ret (httprouter.ParamsFromContext c).

(** ** Reading the heap *)

(** A façade as its users see it: the router it registers with, its base
    path and the middleware values in its list. *)
Record facade : Type := {
  f_router : nat;
  f_basePath : string;
  f_middlewares : list Middleware
}.

Definition view (s : Heap) (h : nat) : option facade :=
  match hitches s !! h with
  | Some hv =>
      Some {| f_router := router hv;
              f_basePath := basePath hv;
              f_middlewares := contents s (middlewares hv) |}
  | None => None
  end.

(** A slice of a well-formed heap is nil with no length and no capacity,
    or points to an allocated array as long as its capacity, of which it
    covers a prefix. *)
Definition wf_slice (s : Heap) (sl : slice) : bool :=
  match s_arr sl with
  | None => (s_len sl =? 0) && (s_cap sl =? 0)
  | Some a =>
      match arrays s !! a with
      | Some cells => (length cells =? s_cap sl) && (s_len sl <=? s_cap sl)
      | None => false
      end
  end.

Definition wf_Hitch (s : Heap) (hv : Hitch) : bool :=
  wf_slice s (middlewares hv) && (router hv <? length (routers s)).

Definition wf (s : Heap) : bool := forallb (wf_Hitch s) (hitches s).

(** [f1 (f2 (... (fn handler)))] *)
Definition chain (fs : list (Handler -> Handler)) (handler : Handler) : Handler :=
  fold_right (fun f acc => f acc) handler fs.

(** [grows s s']: every [Hitch] and every array of [s] is in [s'], where
    it was and as it was, and no router is gone. *)
Definition grows (s s' : Heap) : Prop :=
  hitches s `prefix_of` hitches s'
  /\ arrays s `prefix_of` arrays s'
  /\ length (routers s) <= length (routers s').

(** ** Paths *)

Definition is_slash (c : option ascii) : bool :=
  match c with
  | Some c => (c =? "/")%char
  | None => false
  end.

(** Whether [s] has a slash just before position [i] and another at [i]. *)
Definition double_slash_at (s : string) (i : nat) : bool :=
  match i with
  | 0 => false
  | S j => is_slash (String.get j s) && is_slash (String.get i s)
  end.

(** Where [path] joins the trimmed base path and the segment. *)
Definition join_point (hv : Hitch) : nat :=
  String.length (strings.TrimSuffix (basePath hv) "/").

(** The two normalisations as the specification names them, by recursion
    on the string: [trimTrailingSlash] removes the slash a string ends
    with, if it ends with one; [normalizeLeadingSlash] gives a segment a
    leading slash unless it is empty or has one. *)
Fixpoint ends_with_slash (s : string) : bool :=
  match s with
  | EmptyString => false
  | String c EmptyString => (c =? "/")%char
  | String _ s' => ends_with_slash s'
  end.

Fixpoint trimTrailingSlash (s : string) : string :=
  match s with
  | EmptyString => EmptyString
  | String c EmptyString => if (c =? "/")%char then EmptyString else s
  | String c s' => String c (trimTrailingSlash s')
  end.

Definition normalizeLeadingSlash (p : string) : string :=
  match p with
  | EmptyString => EmptyString
  | String c _ => if (c =? "/")%char then p else String "/" p
  end.

(** What is asked of the join for base path [basePath hv] and segment [p]:
    for an empty segment the result is the trimmed base path; otherwise no
    double slash sits at the join point and the segment starts there with
    its slash. *)
Definition clean_join (hv : Hitch) (p : string) : bool :=
  if (p =? "")%string then
    (path hv p =? trimTrailingSlash (basePath hv))%string
  else
    negb (double_slash_at (path hv p) (join_point hv))
    && is_slash (String.get (join_point hv) (path hv p)).

(** ** Observing the order of a chain *)

(** A handler that writes [data] to the response. *)
Definition writes (data : string) : Handler := fun w _ => Write w data.

(** A middleware that writes [before], delegates, then writes [after]. *)
Definition around (before after : string) : Handler -> Handler :=
  fun next w req =>
    Write w before ;;;
    ServeHTTP next w req ;;;
    Write w after.

(** [appends handler t]: serving a request, [handler] leaves the requests
    alone and adds the chunks [t], in this order, to what was written to
    the response before; it writes nowhere else. *)
Definition appends (handler : Handler) (t : list string) : Prop :=
  forall w req s chunks,
    responses s !! w = Some chunks ->
    ServeHTTP handler w req s
    = Ok tt {| requests := requests s;
               responses := <[w := chunks ++ t]> (responses s) |}.

(** ** Registrations *)

(** [registered s s' r rt]: heap [s'] is heap [s] but for router [r], which
    keeps its flag and its routes and has [rt] as one more route. *)
Definition registered (s s' : Heap) (r : nat) (rt : Route) : Prop :=
  exists rv,
    routers s !! r = Some rv
    /\ s' = set_routers s
         (<[r := {| HandleMethodNotAllowed := HandleMethodNotAllowed rv;
                    routes := routes rv ++ [rt] |}]> (routers s)).

(** The forms a registration call takes in the source. *)
Inductive form : Type :=
| ByHandle (method : string)
| ByHandleFunc (method : string)
| ByGET | ByPUT | ByPOST | ByPATCH | ByDELETE | ByOPTIONS.

(** The method a form registers under: its argument, or the standard name
    of the verb. *)
Definition method_of (f : form) : string :=
  match f with
  | ByHandle method | ByHandleFunc method => method
  | ByGET => "GET"
  | ByPUT => "PUT"
  | ByPOST => "POST"
  | ByPATCH => "PATCH"
  | ByDELETE => "DELETE"
  | ByOPTIONS => "OPTIONS"
  end.

Definition register `{httprouter.Engine} (f : form) (h : nat) (p : string)
    (handler : Handler) (middleware : list Middleware) : M Heap unit :=
  match f with
  | ByHandle method => Handle h method p handler middleware
  | ByHandleFunc method => HandleFunc h method p handler middleware
  | ByGET => GET h p handler middleware
  | ByPUT => PUT h p handler middleware
  | ByPOST => POST h p handler middleware
  | ByPATCH => PATCH h p handler middleware
  | ByDELETE => DELETE h p handler middleware
  | ByOPTIONS => OPTIONS h p handler middleware
  end.

(** Middleware attachment in the words of the specification: "derive a
    façade at the same base path, with copied middleware", then append "the
    given middleware values, in argument order, to the end of the copied
    list". *)
Definition withMiddleware_spec (v : facade) (mw : list Middleware) : facade :=
  {| f_router := f_router v;
     f_basePath := f_basePath v;
     f_middlewares := f_middlewares v ++ mw |}.

(** ** Programs over the package *)

(** The calls a client makes while it builds its route table. *)
Inductive op : Type :=
| DoNew
| DoSubPath (h : nat) (p : string)
| DoWithMiddleware (h : nat) (middleware : list Middleware)
| DoWithHandlerMiddleware (h : nat) (handler : Handler)
| DoRegister (f : form) (h : nat) (p : string) (handler : Handler)
    (middleware : list Middleware).

Definition run_op `{Runtime} `{httprouter.Engine} (o : op) : M Heap unit :=
  match o with
  | DoNew => New ;;; ret tt
  | DoSubPath h p => SubPath h p ;;; ret tt
  | DoWithMiddleware h middleware => WithMiddleware h middleware ;;; ret tt
  | DoWithHandlerMiddleware h handler => WithHandlerMiddleware h handler ;;; ret tt
  | DoRegister f h p handler middleware => register f h p handler middleware
  end.

Fixpoint run_ops `{Runtime} `{httprouter.Engine} (os : list op) : M Heap unit :=
  match os with
  | [] => ret tt
  | o :: os' => run_op o ;;; run_ops os'
  end.

(** A computation that, when it returns, has left every router as it was. *)
Definition keeps_routers {A} (c : M Heap A) : Prop :=
  forall s a s', c s = Ok a s' -> routers s' = routers s.

(** Router [r] exists and selects "not found". *)
Definition flag_off (s : Heap) (r : nat) : Prop :=
  exists rv, routers s !! r = Some rv /\ HandleMethodNotAllowed rv = false.

(** [Params.ByName]: the value of the first binding of [name], or the empty
    string. *)
Fixpoint ByName (ps : httprouter_Params) (name : string) : string :=
  match ps with
  | [] => ""
  | (k, v) :: ps' => if (k =? name)%string then v else ByName ps' name
  end.

(** A handler that writes the value bound to [name]. *)
Definition echo_param (name : string) : Handler :=
  fun w req =>
    ps <- Params req ;;
    Write w (ByName ps name).

(** ** Instances to run the model on *)

(** A runtime that doubles the capacity when it reallocates. *)
Definition doubling : Runtime := {| growcap := fun old _ => 2 * old |}.

Fixpoint split_slash (acc : string) (s : string) : list string :=
  match s with
  | EmptyString => [acc]
  | String c s' =>
      if (c =? "/")%char then acc :: split_slash "" s'
      else split_slash (acc +:+ String c "") s'
  end.

Fixpoint match_segments (pat segs : list string) : option httprouter_Params :=
  match pat, segs with
  | [], [] => Some []
  | String ":" name :: pat', seg :: segs' =>
      if (seg =? "")%string then None
      else match match_segments pat' segs' with
           | Some ps => Some ((name, seg) :: ps)
           | None => None
           end
  | lit :: pat', seg :: segs' =>
      if (lit =? seg)%string then match_segments pat' segs' else None
  | _, _ => None
  end.

Definition same_route (method path : string) (rt : Route) : bool :=
  (route_method rt =? method)%string && (route_path rt =? path)%string.

(** A router engine with named segments, which refuses paths without a
    leading slash and a second registration of the same method and path,
    and whose flag is on until it is turned off. *)
Definition segment_engine : httprouter.Engine :=
  {| httprouter.default_HandleMethodNotAllowed := true;
     httprouter.accepts := fun rs method path =>
       strings.HasPrefix path "/" && negb (existsb (same_route method path) rs);
     httprouter.match_path := fun pat path =>
       match_segments (split_slash "" pat) (split_slash "" path) |}.

(** A heap to run on: a root façade, a façade derived from it with the
    middleware [A], [B], and their router, with its flag off and no route. *)
Definition two_middleware_heap : Heap :=
  {| hitches :=
       [{| router := 0; basePath := ""; middlewares := nil_slice |};
        {| router := 0; basePath := "";
           middlewares := {| s_arr := Some 0; s_len := 2; s_cap := 2 |} |}];
     arrays := [[Func (around "A" "A'"); Func (around "B" "B'")]];
     routers := [{| HandleMethodNotAllowed := false; routes := [] |}] |}.

(** A heap with a façade whose base path ends in a slash: a root and the
    façade [SubPath("/v1/")] derives from it. *)
Definition trailing_slash_heap : Heap :=
  {| hitches :=
       [{| router := 0; basePath := ""; middlewares := nil_slice |};
        {| router := 0; basePath := "/v1/"; middlewares := nil_slice |}];
     arrays := [];
     routers := [{| HandleMethodNotAllowed := false; routes := [] |}] |}.

(** ** Predicates on heaps and lists *)

(** A path as a router takes it from the root, or none: the empty string
    or a string that starts with a slash. *)
Definition rooted (p : string) : bool :=
  (p =? "")%string || strings.HasPrefix p "/".

(** Every base path and every registered path of the heap is [rooted]. *)
Definition paths_rooted (s : Heap) : bool :=
  forallb (fun hv => rooted (basePath hv)) (hitches s)
  && forallb (fun rv => forallb (fun rt => rooted (route_path rt)) (routes rv))
       (routers s).

(** [rv'] is [rv] with its flag as it was and, possibly, more routes after
    the ones it had. *)
Definition router_extends (rv rv' : httprouter_Router) : Prop :=
  HandleMethodNotAllowed rv' = HandleMethodNotAllowed rv
  /\ routes rv `prefix_of` routes rv'.

Definition is_nil (m : Middleware) : bool :=
  match m with
  | nilFunc => true
  | Func _ => false
  end.

(** Whether a list of middleware values holds a nil func. *)
Definition has_nil (ms : list Middleware) : bool := existsb is_nil ms.

(** A route table built with every kind of call. *)
Definition sample_ops : list op :=
  [DoNew;
   DoWithMiddleware 0 [Func (around "A" "A'")];
   DoSubPath 1 "api/";
   DoWithHandlerMiddleware 2 (writes "auth");
   DoRegister ByGET 3 "items" (writes "h") [Func (around "C" "C'")];
   DoRegister (ByHandle "HEAD") 2 "/" (writes "h") [];
   DoNew;
   DoRegister ByPOST 4 "x" (writes "h") []].

(** * Properties *)

(** ** Strings *)

Section string_facts.

Implicit Types s a b suffix : string.

Lemma str_app_cons c a b : String c a +:+ b = String c (a +:+ b).
Proof. reflexivity. Qed.

Lemma str_app_nil_l s : "" +:+ s = s.
Proof. reflexivity. Qed.

Lemma str_app_nil_r s : s +:+ "" = s.
Proof. induction s as [|c s IH]; [done | by rewrite str_app_cons, IH]. Qed.

Lemma str_length_app a b : String.length (a +:+ b) = String.length a + String.length b.
Proof.
  induction a as [|c a IH]; [done |]. rewrite str_app_cons. simpl. by rewrite IH.
Qed.

Lemma substring_all s : substring 0 (String.length s) s = s.
Proof. induction s as [|c s IH]; simpl; [done | by rewrite IH]. Qed.

Lemma substring_app_l a b : substring 0 (String.length a) (a +:+ b) = a.
Proof.
  induction a as [|c a IH].
  - rewrite str_app_nil_l. by destruct b.
  - rewrite str_app_cons. simpl. by rewrite IH.
Qed.

Lemma substring_app_r a b :
  substring (String.length a) (String.length b) (a +:+ b) = b.
Proof.
  induction a as [|c a IH]; [apply substring_all |].
  rewrite str_app_cons. simpl. exact IH.
Qed.

Lemma HasSuffix_app a suffix : strings.HasSuffix (a +:+ suffix) suffix = true.
Proof.
  unfold strings.HasSuffix, strings.slice_str. rewrite str_length_app.
  replace (String.length a + String.length suffix - String.length suffix)
    with (String.length a) by lia.
  replace (String.length a + String.length suffix - String.length a)
    with (String.length suffix) by lia.
  rewrite substring_app_r, String.eqb_refl, andb_true_r.
  apply Nat.leb_le. lia.
Qed.

Lemma TrimSuffix_app a suffix : strings.TrimSuffix (a +:+ suffix) suffix = a.
Proof.
  unfold strings.TrimSuffix, strings.slice_str. rewrite HasSuffix_app, str_length_app.
  replace (String.length a + String.length suffix - String.length suffix - 0)
    with (String.length a) by lia.
  apply substring_app_l.
Qed.

Lemma ends_with_slash_split s :
  ends_with_slash s = true -> s = trimTrailingSlash s +:+ "/".
Proof.
  induction s as [|c s IH]; simpl; [done |].
  destruct s as [|c' s'].
  - destruct (Ascii.eqb_spec c "/"); [by subst | done].
  - intros H. rewrite str_app_cons. f_equal. by apply IH.
Qed.

Lemma trimTrailingSlash_id s :
  ends_with_slash s = false -> trimTrailingSlash s = s.
Proof.
  induction s as [|c s IH]; simpl; [done |].
  destruct s as [|c' s'].
  - by intros ->.
  - intros H. f_equal. by apply IH.
Qed.

Lemma HasSuffix_slash s : strings.HasSuffix s "/" = ends_with_slash s.
Proof.
  destruct (ends_with_slash s) eqn:E.
  - rewrite (ends_with_slash_split s E). apply HasSuffix_app.
  - unfold strings.HasSuffix, strings.slice_str. simpl String.length.
    induction s as [|c s IH]; [done |].
    destruct s as [|c' s'].
    + simpl in *. by rewrite E.
    + specialize (IH E). simpl String.length in *.
      replace (S (S (String.length s')) - 1) with (S (String.length s')) by lia.
      replace (S (S (String.length s')) - S (String.length s')) with 1 by lia.
      replace (S (String.length s') - 1) with (String.length s') in IH by lia.
      replace (S (String.length s') - String.length s') with 1 in IH by lia.
      simpl in IH. simpl. exact IH.
Qed.

(** Go's [strings.TrimSuffix(s, "/")] is the specification's
    [trimTrailingSlash]. *)
Lemma TrimSuffix_slash s : strings.TrimSuffix s "/" = trimTrailingSlash s.
Proof.
  destruct (ends_with_slash s) eqn:E.
  - rewrite (ends_with_slash_split s E) at 1. apply TrimSuffix_app.
  - unfold strings.TrimSuffix. rewrite HasSuffix_slash, E.
    symmetry. by apply trimTrailingSlash_id.
Qed.

Lemma HasPrefix_slash s :
  strings.HasPrefix s "/" = is_slash (String.get 0 s).
Proof.
  destruct s as [|c s]; [done |].
  unfold strings.HasPrefix, strings.slice_str. simpl.
  destruct s; simpl; by destruct (Ascii.eqb c "/").
Qed.

Lemma str_app_assoc a b s : (a +:+ b) +:+ s = a +:+ (b +:+ s).
Proof.
  induction a as [|c a IH]; [done |]. by rewrite !str_app_cons, IH.
Qed.

Lemma get_app_r a b : String.get (String.length a) (a +:+ b) = String.get 0 b.
Proof. symmetry. apply (append_correct2 a b 0). Qed.

Lemma get_last s c :
  is_slash (String.get (String.length s) (String c s))
  = ends_with_slash (String c s).
Proof.
  revert c. induction s as [|c' s IH]; intros c; [done |].
  simpl String.length. change (String.get (S ?n) (String ?c ?s)) with (String.get n s).
  rewrite IH. done.
Qed.

Lemma double_slash_at_app a b :
  double_slash_at (a +:+ b) (String.length a)
  = ends_with_slash a && is_slash (String.get 0 b).
Proof.
  destruct a as [|c a]; [done |].
  unfold double_slash_at. simpl String.length. cbv iota beta.
  rewrite <- (append_correct1 (String c a) b (String.length a)) by (simpl; lia).
  rewrite get_last. do 2 f_equal. apply (get_app_r (String c a) b).
Qed.

Lemma trimmed_no_slash s :
  strings.HasSuffix s "//" = false -> ends_with_slash (trimTrailingSlash s) = false.
Proof.
  intros H. destruct (ends_with_slash (trimTrailingSlash s)) eqn:E2; [| done].
  destruct (ends_with_slash s) eqn:E1.
  - pose proof (ends_with_slash_split _ E1) as H1.
    pose proof (ends_with_slash_split _ E2) as H2.
    rewrite H2, str_app_assoc in H1.
    rewrite H1, HasSuffix_app in H. done.
  - rewrite trimTrailingSlash_id in E2 by done. congruence.
Qed.

Lemma segment_normalised p :
  (if negb (p =? "")%string && negb (strings.HasPrefix p "/")
   then "/" +:+ p else p) = normalizeLeadingSlash p.
Proof.
  destruct p as [|c p]; [done |].
  rewrite HasPrefix_slash. simpl. by destruct (Ascii.eqb c "/").
Qed.

Lemma normalizeLeadingSlash_slash p :
  p <> "" -> is_slash (String.get 0 (normalizeLeadingSlash p)) = true.
Proof.
  destruct p as [|c p]; [done |]. intros _. simpl.
  by destruct (Ascii.eqb c "/") eqn:E; simpl; [rewrite E |].
Qed.

End string_facts.

(** ** Path composition *)

Lemma path_eq hv p :
  path hv p = trimTrailingSlash (basePath hv) +:+ normalizeLeadingSlash p.
Proof. unfold path. by rewrite TrimSuffix_slash, segment_normalised. Qed.

Lemma path_empty hv : path hv "" = trimTrailingSlash (basePath hv).
Proof. rewrite path_eq. apply str_app_nil_r. Qed.

Lemma join_point_eq hv : join_point hv = String.length (trimTrailingSlash (basePath hv)).
Proof. unfold join_point. by rewrite TrimSuffix_slash. Qed.

(** C3, as amended: for every base path that does not end in two slashes
    and every segment [p], [path] joins cleanly: when [p] is empty the
    result is [trimTrailingSlash] of the base path; otherwise the result is
    the trimmed base path followed by the segment with its leading slash,
    the byte before the join point is not a slash and the byte at the join
    point is one. *)
Theorem path_clean_join (hv : Hitch) (p : string) :
  strings.HasSuffix (basePath hv) "//" = false ->
  clean_join hv p = true
  /\ path hv p = trimTrailingSlash (basePath hv) +:+ normalizeLeadingSlash p
  /\ (p = "" -> path hv p = trimTrailingSlash (basePath hv))
  /\ (p <> "" ->
      double_slash_at (path hv p) (join_point hv) = false
      /\ is_slash (String.get (join_point hv) (path hv p)) = true).
Proof.
  intros Hb.
  assert (Hne : p <> "" ->
      double_slash_at (path hv p) (join_point hv) = false
      /\ is_slash (String.get (join_point hv) (path hv p)) = true).
  { intros Hp. rewrite join_point_eq, path_eq, double_slash_at_app, get_app_r.
    rewrite trimmed_no_slash by done. split; [done |].
    by apply normalizeLeadingSlash_slash. }
  split; [| split; [apply path_eq | split; [by intros -> ; apply path_empty | done]]].
  unfold clean_join. destruct (String.eqb_spec p "") as [-> | Hp].
  - rewrite path_empty. apply String.eqb_refl.
  - destruct (Hne Hp) as [-> ->]. done.
Qed.

Lemma path_clean_join_witness :
  strings.HasSuffix "/v1/" "//" = false
  /\ clean_join {| router := 0; basePath := "/v1/"; middlewares := nil_slice |}
       "users" = true.
Proof.
  split; [reflexivity |].
  refine (proj1 (path_clean_join
           {| router := 0; basePath := "/v1/"; middlewares := nil_slice |} "users" _)).
  reflexivity.
Defined.

(** C3 fails as stated: a base path ending in two slashes keeps one of
    them, and the slash of the segment follows it. *)
Lemma path_double_slash_counterexample :
  let hv := {| router := 0; basePath := "/v1//"; middlewares := nil_slice |} in
  path hv "users" = "/v1//users"
  /\ join_point hv = 4
  /\ double_slash_at (path hv "users") (join_point hv) = true
  /\ clean_join hv "users" = false.
Proof. repeat split; reflexivity. Qed.

(** ** Running computations *)

Lemma bind_Ok {S A B} (c : M S A) (k : A -> M S B) s a s' :
  c s = Ok a s' -> (x <- c ;; k x) s = k a s'.
Proof. unfold bind. by intros ->. Qed.

Lemma bind_inv {S A B} (c : M S A) (k : A -> M S B) s b s'' :
  (x <- c ;; k x) s = Ok b s'' ->
  exists a s', c s = Ok a s' /\ k a s' = Ok b s''.
Proof. unfold bind. destruct (c s) as [a s'|e]; [eauto | done]. Qed.

Lemma set_arrays_id s : set_arrays s (arrays s) = s.
Proof. by destruct s. Qed.

Lemma set_hitches_id s : set_hitches s (hitches s) = s.
Proof. by destruct s. Qed.

(** ** Well-formed heaps and their growth *)

Lemma grows_trans s1 s2 s3 : grows s1 s2 -> grows s2 s3 -> grows s1 s3.
Proof.
  intros (H1 & H2 & H3) (K1 & K2 & K3).
  repeat split; [by etrans | by etrans | lia].
Qed.

Lemma wf_slice_elim s sl :
  wf_slice s sl = true ->
  (s_arr sl = None /\ s_len sl = 0 /\ s_cap sl = 0)
  \/ (exists a cells, s_arr sl = Some a /\ arrays s !! a = Some cells
        /\ length cells = s_cap sl /\ s_len sl <= s_cap sl).
Proof.
  unfold wf_slice. destruct (s_arr sl) as [a|].
  - destruct (arrays s !! a) as [cells|] eqn:E; [| done].
    intros [H1 H2]%andb_prop. apply Nat.eqb_eq in H1. apply Nat.leb_le in H2.
    right. eauto 10.
  - intros [H1 H2]%andb_prop. apply Nat.eqb_eq in H1, H2. by left.
Qed.

Lemma wf_slice_mono s s' sl :
  arrays s `prefix_of` arrays s' -> wf_slice s sl = true -> wf_slice s' sl = true.
Proof.
  intros Hp H. unfold wf_slice in *. destruct (s_arr sl) as [a|]; [| done].
  destruct (arrays s !! a) as [cells|] eqn:E; [| done].
  by rewrite (prefix_lookup_Some _ _ _ _ E Hp).
Qed.

Lemma contents_mono s s' sl :
  arrays s `prefix_of` arrays s' -> wf_slice s sl = true ->
  contents s' sl = contents s sl.
Proof.
  intros Hp H. unfold contents, wf_slice in *. destruct (s_arr sl) as [a|]; [| done].
  destruct (arrays s !! a) as [cells|] eqn:E; [| done].
  by rewrite (prefix_lookup_Some _ _ _ _ E Hp).
Qed.

Lemma contents_length s sl : wf_slice s sl = true -> length (contents s sl) = s_len sl.
Proof.
  intros [(E & -> & _) | (a & cells & E & Ha & Hc & Hl)]%wf_slice_elim;
    unfold contents; rewrite E; [done |].
  rewrite Ha. simpl. rewrite length_take. lia.
Qed.

Lemma elems_wf s sl : wf_slice s sl = true -> elems sl s = Ok (contents s sl) s.
Proof.
  intros [(E & _) | (a & cells & E & Ha & _)]%wf_slice_elim;
    unfold elems, contents; rewrite E; [done |]. by rewrite Ha.
Qed.

Lemma wf_Hitch_mono s s' hv : grows s s' -> wf_Hitch s hv = true -> wf_Hitch s' hv = true.
Proof.
  intros (_ & Hp & Hr) [H1 H2]%andb_prop. unfold wf_Hitch.
  rewrite (wf_slice_mono s s') by done. apply Nat.ltb_lt in H2.
  apply Nat.ltb_lt. lia.
Qed.

Lemma wf_lookup s h hv : wf s = true -> hitches s !! h = Some hv -> wf_Hitch s hv = true.
Proof.
  unfold wf. rewrite forallb_forall. intros H E. apply H, list_elem_of_In.
  by eapply list_elem_of_lookup_2.
Qed.

Lemma wf_intro s :
  (forall h hv, hitches s !! h = Some hv -> wf_Hitch s hv = true) -> wf s = true.
Proof.
  intros H. unfold wf. rewrite forallb_forall. intros hv Hin.
  apply list_elem_of_In, list_elem_of_lookup in Hin as [h Hh]. eauto.
Qed.

Lemma wf_snoc s s' hv :
  wf s = true -> grows s s' -> hitches s' = hitches s ++ [hv] ->
  wf_Hitch s' hv = true -> wf s' = true.
Proof.
  intros Hwf Hg Hh Hhv. apply wf_intro. intros h hv'. rewrite Hh.
  intros [Hl | (_ & Hl)]%lookup_app_Some.
  - eapply wf_Hitch_mono; [done |]. by eapply wf_lookup.
  - destruct (h - length (hitches s)); simpl in Hl; [| done]. congruence.
Qed.

Lemma view_mono s s' h v :
  wf s = true -> grows s s' -> view s h = Some v -> view s' h = Some v.
Proof.
  intros Hwf (Hh & Ha & _). unfold view.
  destruct (hitches s !! h) as [hv|] eqn:E; [| done].
  rewrite (prefix_lookup_Some _ _ _ _ E Hh). intros <-.
  rewrite (contents_mono s s'); [done | done |].
  by apply (wf_lookup s h hv Hwf) in E as [? _]%andb_prop.
Qed.

(** ** Slice builtins on well-formed heaps *)

Lemma store_run s sl from vs a cells :
  s_arr sl = Some a -> arrays s !! a = Some cells ->
  store sl from vs s
  = Ok tt (set_arrays s
      (<[a := take from cells ++ vs ++ drop (from + length vs) cells]> (arrays s))).
Proof.
  intros Ea Ha. unfold store. rewrite Ea. destruct vs as [|v vs].
  - simpl. rewrite Nat.add_0_r, take_drop, list_insert_id by done.
    by rewrite set_arrays_id.
  - by rewrite Ha.
Qed.

(** [make] followed by [copy] from a slice of the same length leaves the
    old arrays alone and fills the new one with the elements of the source. *)
Lemma make_copy_run s sl :
  wf_slice s sl = true ->
  (c <- make (len sl) ;; copy c sl ;;; ret c) s
  = Ok {| s_arr := Some (length (arrays s)); s_len := len sl; s_cap := len sl |}
       (set_arrays s (arrays s ++ [contents s sl])).
Proof.
  intros Hsl. unfold make at 1.
  set (s1 := set_arrays s (arrays s ++ [replicate (len sl) nilFunc])).
  assert (Hp : arrays s `prefix_of` arrays s1) by (by apply prefix_app_r).
  unfold bind at 1. unfold copy.
  erewrite (bind_Ok (bind _ _)); [reflexivity |].
  erewrite bind_Ok; [| apply elems_wf; by eapply wf_slice_mono].
  rewrite (contents_mono s s1) by done.
  erewrite bind_Ok; [reflexivity |].
  erewrite store_run; [| reflexivity | by apply list_lookup_middle].
  pose proof (contents_length s sl Hsl) as Hlen.
  simpl. unfold len in *. rewrite Nat.min_id.
  rewrite (take_ge (contents s sl)) by lia.
  rewrite drop_ge by (rewrite length_replicate; lia).
  rewrite app_nil_r. unfold set_arrays. simpl. f_equal. f_equal.
  rewrite insert_app_r_alt by done. by rewrite Nat.sub_diag.
Qed.

(** [append] to a slice without spare capacity. *)
Lemma append_full `{Runtime} s sl vs :
  wf_slice s sl = true -> s_cap sl = s_len sl ->
  exists sl' s',
    append sl vs s = Ok sl' s'
    /\ hitches s' = hitches s
    /\ routers s' = routers s
    /\ arrays s `prefix_of` arrays s'
    /\ wf_slice s' sl' = true
    /\ contents s' sl' = contents s sl ++ vs.
Proof.
  intros Hsl Hcap. unfold append, len. destruct vs as [|v vs].
  - simpl. rewrite Nat.add_0_r, Hcap, Nat.leb_refl.
    exists {| s_arr := s_arr sl; s_len := s_len sl; s_cap := s_len sl |}, s.
    rewrite app_nil_r. destruct sl as [a l c]. simpl in *. subst c.
    repeat split; done.
  - set (need := s_len sl + length (v :: vs)).
    assert (Hneed : s_cap sl < need) by (unfold need; simpl; lia).
    destruct (need <=? s_cap sl) eqn:E; [apply Nat.leb_le in E; lia |].
    erewrite bind_Ok; [| by apply elems_wf].
    set (c := need `max` growcap (s_cap sl) need).
    eexists _, _. split; [reflexivity |]. simpl.
    pose proof (contents_length s sl Hsl) as Hlen.
    change (v :: vs ++ replicate (c - need) nilFunc)
      with ((v :: vs) ++ replicate (c - need) nilFunc).
    repeat split; [by apply prefix_app_r | |].
    + unfold wf_slice. simpl s_arr. simpl arrays. cbv beta iota.
      rewrite list_lookup_middle by done. simpl s_cap. simpl s_len.
      rewrite length_app. simpl length.
      rewrite length_app, length_replicate, Hlen. subst c need. simpl length.
      apply andb_true_intro. split; [apply Nat.eqb_eq | apply Nat.leb_le]; lia.
    + unfold contents at 1. simpl s_arr. simpl arrays. cbv beta iota.
      rewrite list_lookup_middle by done. simpl s_len. simpl default.
      change (v :: vs ++ replicate (c - need) nilFunc)
        with ((v :: vs) ++ replicate (c - need) nilFunc).
      rewrite app_assoc. apply take_app_length'.
      rewrite length_app, Hlen. done.
Qed.

(** ** Deriving façades *)

Lemma SubPath_run s h hv p :
  wf s = true -> hitches s !! h = Some hv ->
  exists sl' s',
    SubPath h p s = Ok (length (hitches s)) s'
    /\ hitches s' = hitches s ++
         [{| router := router hv; basePath := path hv p; middlewares := sl' |}]
    /\ arrays s `prefix_of` arrays s'
    /\ routers s' = routers s
    /\ wf_slice s' sl' = true
    /\ s_cap sl' = s_len sl'
    /\ contents s' sl' = contents s (middlewares hv)
    /\ (forall a, s_arr sl' = Some a -> length (arrays s) <= a).
Proof.
  intros Hwf Hh.
  pose proof (wf_lookup s h hv Hwf Hh) as [Hsl _]%andb_prop.
  unfold SubPath. erewrite bind_Ok; [| unfold deref; by rewrite Hh].
  destruct (0 <? len (middlewares hv)) eqn:E.
  - erewrite bind_Ok; [| by apply make_copy_run].
    eexists _, _. split; [reflexivity |]. simpl.
    repeat split; [by apply prefix_app_r | | |].
    + unfold wf_slice. simpl. rewrite list_lookup_middle by done.
      rewrite contents_length by done. unfold len.
      by rewrite Nat.eqb_refl, Nat.leb_refl.
    + unfold contents at 1. simpl. rewrite list_lookup_middle by done. simpl.
      apply take_ge. rewrite contents_length by done. done.
    + by intros a [= <-].
  - apply Nat.ltb_ge in E. unfold len in E.
    eexists nil_slice, _. split; [reflexivity |]. simpl.
    repeat split; [done | | done].
    symmetry. apply length_zero_iff_nil. rewrite contents_length by done. lia.
Qed.

Lemma WithMiddleware_run `{Runtime} s h hv middleware :
  wf s = true -> hitches s !! h = Some hv ->
  exists sl' s',
    WithMiddleware h middleware s = Ok (length (hitches s)) s'
    /\ hitches s' = hitches s ++
         [{| router := router hv; basePath := path hv ""; middlewares := sl' |}]
    /\ arrays s `prefix_of` arrays s'
    /\ routers s' = routers s
    /\ wf_slice s' sl' = true
    /\ contents s' sl' = contents s (middlewares hv) ++ middleware.
Proof.
  intros Hwf Hh.
  destruct (SubPath_run s h hv "" Hwf Hh)
    as (sl1 & s1 & Hrun & Hh1 & Ha1 & Hr1 & Hwf1 & Hcap1 & Hc1 & _).
  destruct (append_full s1 sl1 middleware Hwf1 Hcap1)
    as (sl2 & s2 & Happ & Hh2 & Hr2 & Ha2 & Hwf2 & Hc2).
  unfold WithMiddleware. erewrite bind_Ok; [| exact Hrun].
  assert (Hnew : hitches s1 !! length (hitches s)
                 = Some {| router := router hv; basePath := path hv "";
                           middlewares := sl1 |})
    by (rewrite Hh1; by apply list_lookup_middle).
  erewrite bind_Ok; [| unfold deref; by rewrite Hnew].
  erewrite bind_Ok; [| exact Happ].
  unfold assign_middlewares, bind. rewrite Hh2, Hnew. simpl.
  eexists sl2, _. split; [reflexivity |].
  split; [| split; [| split; [| split]]].
  - simpl. rewrite Hh1, insert_app_r_alt by done. by rewrite Nat.sub_diag.
  - simpl. by etrans.
  - simpl. congruence.
  - exact Hwf2.
  - etrans; [exact Hc2 |]. by rewrite Hc1.
Qed.

(** A heap that gained one well-formed [Hitch] at the end. *)
Lemma derived s s' hv sl' p' :
  wf s = true ->
  hitches s' = hitches s ++
    [{| router := router hv; basePath := p'; middlewares := sl' |}] ->
  arrays s `prefix_of` arrays s' ->
  routers s' = routers s ->
  wf_slice s' sl' = true ->
  (router hv <? length (routers s)) = true ->
  grows s s' /\ wf s' = true
  /\ view s' (length (hitches s))
     = Some {| f_router := router hv; f_basePath := p';
               f_middlewares := contents s' sl' |}.
Proof.
  intros Hwf Hh Ha Hr Hsl Hrt.
  assert (Hg : grows s s').
  { repeat split; [rewrite Hh; by apply prefix_app_r | done | by rewrite Hr]. }
  split; [done |]. split.
  - eapply wf_snoc; [done | done | done |].
    unfold wf_Hitch. simpl. by rewrite Hsl, Hr, Hrt.
  - unfold view. rewrite Hh, list_lookup_middle by done. done.
Qed.

(** ** Registration *)

Lemma chain_app fs gs handler : chain (fs ++ gs) handler = chain fs (chain gs handler).
Proof. unfold chain. apply fold_right_app. Qed.

Lemma chain_snoc fs f handler : chain (fs ++ [f]) handler = chain fs (f handler).
Proof. by rewrite chain_app. Qed.

(** The first loop of [Handle]: the per-call middleware, last to first. *)
Lemma wrap_args_run fs n handler s :
  n <= length fs ->
  wrap_args (map Func fs) n handler s = Ok (chain (take n fs) handler) s.
Proof.
  revert handler. induction n as [|i IH]; intros handler Hn; [done |].
  destruct (lookup_lt_is_Some_2 fs i) as [f Hf]; [lia |].
  simpl. unfold index_arg. rewrite list_lookup_fmap, Hf. simpl.
  unfold bind at 1. unfold ret at 1. unfold bind at 1. simpl.
  rewrite IH by lia. by rewrite (take_S_r fs i f), chain_snoc.
Qed.

Lemma index_run s sl i m :
  wf_slice s sl = true -> contents s sl !! i = Some m -> index sl i s = Ok m s.
Proof.
  intros Hsl Hm. unfold index.
  apply lookup_lt_Some in Hm as Hi. rewrite contents_length in Hi by done.
  apply Nat.ltb_lt in Hi. unfold len. rewrite Hi.
  erewrite bind_Ok; [| by apply elems_wf]. by rewrite Hm.
Qed.

(** The second loop of [Handle]: the middleware of the façade, last to first. *)
Lemma wrap_own_run s h hv fs n handler :
  hitches s !! h = Some hv ->
  wf_slice s (middlewares hv) = true ->
  contents s (middlewares hv) = map Func fs ->
  n <= length fs ->
  wrap_own h n handler s = Ok (chain (take n fs) handler) s.
Proof.
  intros Hh Hsl Hc. revert handler. induction n as [|i IH]; intros handler Hn; [done |].
  destruct (lookup_lt_is_Some_2 fs i) as [f Hf]; [lia |].
  simpl. erewrite bind_Ok; [| unfold deref; by rewrite Hh].
  erewrite bind_Ok;
    [| apply index_run; [done | by rewrite Hc, list_lookup_fmap, Hf]].
  simpl. unfold bind at 1. unfold ret at 1.
  rewrite IH by lia. by rewrite (take_S_r fs i f), chain_snoc.
Qed.

(** [Handle] on a well-formed heap: both loops run to their end, and the
    router of the façade gets one route, for the composed path and the
    handler wrapped by the middleware of the façade around the middleware
    of the call. *)
Lemma Handle_run `{httprouter.Engine} s h hv rv inst extra method p handler :
  wf s = true ->
  hitches s !! h = Some hv ->
  contents s (middlewares hv) = map Func inst ->
  routers s !! router hv = Some rv ->
  httprouter.accepts (routes rv) method (path hv p) = true ->
  Handle h method p handler (map Func extra) s
  = Ok tt (set_routers s
      (<[router hv :=
           {| HandleMethodNotAllowed := HandleMethodNotAllowed rv;
              routes := routes rv ++
                [{| route_method := method;
                    route_path := path hv p;
                    route_handler := chain (inst ++ extra) handler |}] |}]>
         (routers s))).
Proof.
  intros Hwf Hh Hc Hr Hacc.
  pose proof (wf_lookup s h hv Hwf Hh) as [Hsl _]%andb_prop.
  unfold Handle.
  erewrite bind_Ok; [| rewrite length_map; by apply wrap_args_run].
  erewrite bind_Ok; [| unfold deref; by rewrite Hh].
  erewrite bind_Ok.
  2:{ eapply wrap_own_run; [done | done | exact Hc |]. unfold len.
      rewrite <- (contents_length s (middlewares hv)) by done.
      rewrite Hc, length_map. done. }
  erewrite bind_Ok; [| unfold deref; by rewrite Hh].
  unfold httprouter.Handler, len. rewrite Hr, Hacc.
  rewrite <- (contents_length s (middlewares hv)), Hc, length_map by done.
  by rewrite !firstn_all, chain_app.
Qed.

Lemma register_Handle `{httprouter.Engine} f h p handler middleware :
  register f h p handler middleware = Handle h (method_of f) p handler middleware.
Proof. by destruct f. Qed.

Lemma registered_frame s s' r rt :
  registered s s' r rt ->
  hitches s' = hitches s /\ arrays s' = arrays s
  /\ length (routers s') = length (routers s)
  /\ (forall h, view s' h = view s h)
  /\ (forall r', r' <> r -> routers s' !! r' = routers s !! r').
Proof.
  intros (rv & Hr & ->). simpl. rewrite length_insert.
  repeat split. intros r' Hne. by apply list_lookup_insert_ne.
Qed.

Lemma registered_lookup s s' r rt :
  registered s s' r rt ->
  exists rv, routers s !! r = Some rv
    /\ routers s' !! r
       = Some {| HandleMethodNotAllowed := HandleMethodNotAllowed rv;
                 routes := routes rv ++ [rt] |}.
Proof.
  intros (rv & Hr & ->). exists rv. split; [done |]. simpl.
  apply list_lookup_insert_eq. by eapply lookup_lt_Some.
Qed.

Lemma registered_wf s s' r rt : registered s s' r rt -> wf s = true -> wf s' = true.
Proof.
  intros Hreg Hwf. destruct (registered_frame _ _ _ _ Hreg) as (Hh & Ha & Hl & _).
  apply wf_intro. intros h hv. rewrite Hh. intros Hhv.
  apply (wf_Hitch_mono s); [| by eapply wf_lookup].
  repeat split; [by rewrite Hh | by rewrite Ha | by rewrite Hl].
Qed.

(** ** Observed order *)

Lemma writes_appends x : appends (writes x) [x].
Proof.
  intros w req s chunks Hw. unfold ServeHTTP, writes, Write. by rewrite Hw.
Qed.

Lemma Write_run w x s chunks :
  responses s !! w = Some chunks ->
  Write w x s = Ok tt {| requests := requests s;
                         responses := <[w := chunks ++ [x]]> (responses s) |}.
Proof. intros Hw. unfold Write. by rewrite Hw. Qed.

Lemma around_appends before after handler t :
  appends handler t ->
  appends (around before after handler) (before :: t ++ [after]).
Proof.
  intros Hh w req s chunks Hw.
  assert (Hlt : w < length (responses s)) by (by eapply lookup_lt_Some).
  unfold ServeHTTP at 1, around.
  erewrite bind_Ok; [| by apply Write_run].
  erewrite bind_Ok; [| apply Hh; simpl; by apply list_lookup_insert_eq].
  erewrite Write_run;
    [| simpl; apply list_lookup_insert_eq; by rewrite length_insert].
  simpl. rewrite !list_insert_insert_eq. do 3 f_equal.
  by rewrite <- !app_assoc.
Qed.

Lemma chain_around_appends (ns : list (string * string)) handler t :
  appends handler t ->
  appends (chain (map (fun n => around n.1 n.2) ns) handler)
          (map fst ns ++ t ++ map snd (rev ns)).
Proof.
  intros Hh. induction ns as [|[a b] ns IH]; simpl.
  - by rewrite app_nil_r.
  - rewrite map_app. simpl. rewrite !app_assoc, <- app_assoc, <- app_assoc.
    rewrite (app_assoc t). rewrite (app_assoc (map fst ns)).
    by apply around_appends.
Qed.

(** Both heaps are what the package builds from nothing. *)
Lemma two_middleware_heap_built :
  (root <- New (H := segment_engine) ;;
   WithMiddleware (H := doubling) root
     [Func (around "A" "A'"); Func (around "B" "B'")]) empty_heap
  = Ok 1 two_middleware_heap.
Proof. reflexivity. Qed.

Lemma trailing_slash_heap_built :
  (root <- New (H := segment_engine) ;; SubPath root "/v1/") empty_heap
  = Ok 1 trailing_slash_heap.
Proof. reflexivity. Qed.

(** ** Middleware order *)

(** C1: on a well-formed heap, for a façade whose middleware list holds
    the functions [inst] and a call of [Handle] with the per-call middleware
    [extra], [Handle] returns, and what changed is that the router of the
    façade has one more route, under the method and the composed path, whose
    handler is the given handler wrapped by [extra] from last to first and
    then by [inst] from last to first: every per-call middleware is nested
    inside every middleware of the façade.  For [inst = [A, B]] and
    [extra = [C, D]] it is [A (B (C (D handler)))]; when each middleware
    writes before and after delegating, the response shows A, B, C, D, the
    handler, then D, C, B, A. *)
Theorem Handle_chain_order `{httprouter.Engine}
    s h hv rv inst extra method p handler :
  wf s = true ->
  hitches s !! h = Some hv ->
  contents s (middlewares hv) = map Func inst ->
  routers s !! router hv = Some rv ->
  httprouter.accepts (routes rv) method (path hv p) = true ->
  exists s',
    Handle h method p handler (map Func extra) s = Ok tt s'
    /\ registered s s' (router hv)
         {| route_method := method; route_path := path hv p;
            route_handler := chain inst (chain extra handler) |}
    /\ (forall A B C D, inst = [A; B] -> extra = [C; D] ->
          chain inst (chain extra handler) = A (B (C (D handler))))
    /\ (forall ns1 ns2 t,
          inst = map (fun n => around n.1 n.2) ns1 ->
          extra = map (fun n => around n.1 n.2) ns2 ->
          appends handler t ->
          appends (chain inst (chain extra handler))
                  (map fst ns1 ++ map fst ns2 ++ t
                   ++ map snd (rev ns2) ++ map snd (rev ns1))).
Proof.
  intros Hwf Hh Hc Hr Hacc. eexists. split; [| split; [| split]].
  - by eapply Handle_run.
  - exists rv. by rewrite chain_app.
  - by intros A B C D -> ->.
  - intros ns1 ns2 t -> -> Ht.
    pose proof (chain_around_appends ns1 _ _ (chain_around_appends ns2 _ _ Ht)) as Hall.
    by rewrite <- !app_assoc in Hall.
Qed.

Lemma Handle_chain_order_witness :
  exists s',
    Handle (H := segment_engine) 1 "GET" "/x" (writes "h")
      [Func (around "C" "C'"); Func (around "D" "D'")] two_middleware_heap
    = Ok tt s'
    /\ appends
         (around "A" "A'" (around "B" "B'"
            (around "C" "C'" (around "D" "D'" (writes "h")))))
         ["A"; "B"; "C"; "D"; "h"; "D'"; "C'"; "B'"; "A'"].
Proof.
  destruct (Handle_chain_order (H := segment_engine) two_middleware_heap 1
              {| router := 0; basePath := "";
                 middlewares := {| s_arr := Some 0; s_len := 2; s_cap := 2 |} |}
              {| HandleMethodNotAllowed := false; routes := [] |}
              [around "A" "A'"; around "B" "B'"]
              [around "C" "C'"; around "D" "D'"]
              "GET" "/x" (writes "h")
              eq_refl eq_refl eq_refl eq_refl eq_refl)
    as (s' & Hrun & _ & _ & Hord).
  exists s'. split; [exact Hrun |].
  exact (Hord [("A", "A'"); ("B", "B'")] [("C", "C'"); ("D", "D'")] ["h"]
           eq_refl eq_refl (writes_appends "h")).
Defined.

Lemma Handle_chain_order_example :
  exists s',
    Handle (H := segment_engine) 1 "GET" "/x" (writes "h")
      [Func (around "C" "C'"); Func (around "D" "D'")] two_middleware_heap
    = Ok tt s'
    /\ match routers s' !! 0 with
       | Some rv =>
           httprouter.ServeHTTP (H := segment_engine) rv 0 0
             {| requests := [{| Method := "GET"; URLPath := "/x"; ctx := Background |}];
                responses := [[]] |}
       | None => Panic NilDereference
       end
       = Ok httprouter.Served
           {| requests :=
                [{| Method := "GET"; URLPath := "/x"; ctx := Background |};
                 {| Method := "GET"; URLPath := "/x";
                    ctx := {| ctx_params := Some [] |} |}];
              responses := [["A"; "B"; "C"; "D"; "h"; "D'"; "C'"; "B'"; "A'"]] |}.
Proof. eexists. split; reflexivity. Qed.

(** ** The handler adapter *)

(** C6: [WithHandlerMiddleware(handler)] derives a façade whose list is the
    list of the receiver followed by one middleware [g].  Serving a request
    through [g next] is running [handler] on the writer and the request
    given and, once it has returned, running [next] on the same writer and
    the same request in the world [handler] left; if [handler] panics,
    [next] is not run.  So what [handler] writes comes before what [next]
    writes. *)
Theorem WithHandlerMiddleware_order `{Runtime} s h hv inst handler :
  wf s = true ->
  hitches s !! h = Some hv ->
  contents s (middlewares hv) = map Func inst ->
  exists c s' g,
    WithHandlerMiddleware h handler s = Ok c s'
    /\ view s' c
       = Some {| f_router := router hv; f_basePath := path hv "";
                 f_middlewares := map Func (inst ++ [g]) |}
    /\ (forall next w req world,
          ServeHTTP (g next) w req world
          = match ServeHTTP handler w req world with
            | Ok _ world1 => ServeHTTP next w req world1
            | Panic e => Panic e
            end)
    /\ (forall next, chain (inst ++ [g]) next = chain inst (g next))
    /\ (forall next t1 t2,
          appends handler t1 -> appends next t2 -> appends (g next) (t1 ++ t2)).
Proof.
  intros Hwf Hh Hc.
  destruct (WithMiddleware_run s h hv [handlerMiddleware handler] Hwf Hh)
    as (sl' & s' & Hrun & Hh' & Ha' & Hr' & Hsl' & Hc').
  pose proof (wf_lookup s h hv Hwf Hh) as [_ Hrt]%andb_prop.
  destruct (derived s s' hv sl' (path hv "") Hwf Hh' Ha' Hr' Hsl' Hrt)
    as (_ & _ & Hview).
  eexists _, s', _. split; [exact Hrun |]. split; [| split; [| split]].
  - rewrite Hview, Hc', Hc, map_app. reflexivity.
  - done.
  - intros next. apply chain_snoc.
  - intros next t1 t2 H1 H2 w req world chunks Hw.
    assert (Hlt : w < length (responses world)) by (by eapply lookup_lt_Some).
    unfold ServeHTTP at 1.
    erewrite bind_Ok; [| by apply H1].
    erewrite H2; [| simpl; by apply list_lookup_insert_eq].
    simpl. by rewrite list_insert_insert_eq, <- app_assoc.
Qed.

Lemma WithHandlerMiddleware_order_witness :
  exists c s' g,
    WithHandlerMiddleware (H := doubling) 1 (writes "first") two_middleware_heap
    = Ok c s'
    /\ view s' c
       = Some {| f_router := 0; f_basePath := "";
                 f_middlewares :=
                   map Func ([around "A" "A'"; around "B" "B'"] ++ [g]) |}
    /\ appends (g (writes "next")) ["first"; "next"].
Proof.
  destruct (WithHandlerMiddleware_order (H := doubling) two_middleware_heap 1
              {| router := 0; basePath := "";
                 middlewares := {| s_arr := Some 0; s_len := 2; s_cap := 2 |} |}
              [around "A" "A'"; around "B" "B'"] (writes "first")
              eq_refl eq_refl eq_refl)
    as (c & s' & g & Hrun & Hview & _ & _ & Happ).
  exists c, s', g. split; [exact Hrun |]. split; [exact Hview |].
  exact (Happ (writes "next") ["first"] ["next"]
           (writes_appends "first") (writes_appends "next")).
Defined.

(** ** Registration leaves the façades alone *)

Lemma call_state {S} m next (s s' : S) g : call m next s = Ok g s' -> s' = s.
Proof. destruct m; [done |]. by intros [= _ <-]. Qed.

Lemma elems_state sl s xs s' : elems sl s = Ok xs s' -> s' = s.
Proof.
  unfold elems. destruct (s_arr sl) as [a|]; [| by intros [= _ <-]].
  destruct (arrays s !! a); [by intros [= _ <-] | done].
Qed.

Lemma index_state sl i s m s' : index sl i s = Ok m s' -> s' = s.
Proof.
  unfold index. destruct (i <? len sl); [| done].
  intros (xs & s1 & ->%elems_state & Hk)%bind_inv.
  destruct (xs !! i); [by injection Hk as _ <- | done].
Qed.

Lemma deref_inv h s hv s' : deref h s = Ok hv s' -> s' = s /\ hitches s !! h = Some hv.
Proof. unfold deref. destruct (hitches s !! h); [by intros [= <- <-] | done]. Qed.

Lemma wrap_args_state middleware n handler s handler' s' :
  wrap_args middleware n handler s = Ok handler' s' -> s' = s.
Proof.
  revert handler. induction n as [|i IH]; intros handler; simpl.
  - by intros [= _ <-].
  - intros (m & s1 & Hm & (g & s2 & ->%call_state & Hk)%bind_inv)%bind_inv.
    unfold index_arg in Hm. destruct (middleware !! i); [| done].
    injection Hm as _ <-. by eapply IH.
Qed.

Lemma wrap_own_state h n handler s handler' s' :
  wrap_own h n handler s = Ok handler' s' -> s' = s.
Proof.
  revert handler. induction n as [|i IH]; intros handler; simpl.
  - by intros [= _ <-].
  - intros (hv & s1 & [-> _]%deref_inv
            & (m & s2 & ->%index_state
               & (g & s3 & ->%call_state & Hk)%bind_inv)%bind_inv)%bind_inv.
    by eapply IH.
Qed.

(** Whatever the heap, a registration call that returns has written to the
    router of the façade only, and only to add one route. *)
Lemma Handle_inv `{httprouter.Engine} h method p handler middleware s s' :
  Handle h method p handler middleware s = Ok tt s' ->
  exists hv wrapped,
    hitches s !! h = Some hv
    /\ registered s s' (router hv)
         {| route_method := method; route_path := path hv p;
            route_handler := wrapped |}.
Proof.
  unfold Handle.
  intros (h1 & s1 & ->%wrap_args_state
          & (hv & s2 & [-> Hh]%deref_inv
             & (h2 & s3 & ->%wrap_own_state
                & (hv' & s4 & [-> Hh']%deref_inv & Hk)%bind_inv)%bind_inv)%bind_inv)%bind_inv.
  assert (hv' = hv) as -> by congruence.
  exists hv, h2. split; [done |]. unfold httprouter.Handler in Hk.
  destruct (routers s !! router hv) as [rv|] eqn:Hr; [| done].
  destruct (httprouter.accepts (routes rv) method (path hv p)); [| done].
  injection Hk as <-. by exists rv.
Qed.

(** C10: a registration call, in whichever form, is [Handle] with the
    method of the form.  It returns on a well-formed heap when the router
    accepts the route, and then no [Hitch] and no array has changed: every
    façade, the receiver among them, has the base path and the middleware
    it had.  The router of the receiver has one more route, under the
    method of the form and the composed path; the other routers are as they
    were.  Whatever the handler and the middleware, a call that returns has
    left every façade as it was. *)
Theorem registration_frame `{httprouter.Engine}
    f s h hv rv inst extra p handler :
  wf s = true ->
  hitches s !! h = Some hv ->
  contents s (middlewares hv) = map Func inst ->
  routers s !! router hv = Some rv ->
  httprouter.accepts (routes rv) (method_of f) (path hv p) = true ->
  exists s' rt,
    register f h p handler (map Func extra) s = Ok tt s'
    /\ register f h p handler (map Func extra)
       = Handle h (method_of f) p handler (map Func extra)
    /\ registered s s' (router hv) rt
    /\ route_method rt = method_of f
    /\ route_path rt = path hv p
    /\ hitches s' = hitches s
    /\ arrays s' = arrays s
    /\ (forall h', view s' h' = view s h')
    /\ view s' h
       = Some {| f_router := router hv; f_basePath := basePath hv;
                 f_middlewares := map Func inst |}
    /\ length (routers s') = length (routers s)
    /\ (forall r', r' <> router hv -> routers s' !! r' = routers s !! r')
    /\ (forall handler' middleware s2,
          register f h p handler' middleware s = Ok tt s2 ->
          hitches s2 = hitches s /\ arrays s2 = arrays s
          /\ (forall h', view s2 h' = view s h')).
Proof.
  intros Hwf Hh Hc Hr Hacc.
  assert (Hany : forall handler' middleware s2,
            register f h p handler' middleware s = Ok tt s2 ->
            hitches s2 = hitches s /\ arrays s2 = arrays s
            /\ (forall h', view s2 h' = view s h')).
  { intros handler' middleware s2. rewrite register_Handle.
    intros (hv' & wrapped & _ & Hreg)%Handle_inv.
    destruct (registered_frame _ _ _ _ Hreg) as (H1 & H2 & _ & H4 & _). done. }
  pose proof (Handle_run s h hv rv inst extra (method_of f) p handler
                Hwf Hh Hc Hr Hacc) as Hrun.
  eexists _, _. split; [rewrite register_Handle; exact Hrun |].
  assert (Hreg : registered s
            (set_routers s
               (<[router hv :=
                    {| HandleMethodNotAllowed := HandleMethodNotAllowed rv;
                       routes := routes rv ++
                         [{| route_method := method_of f;
                             route_path := path hv p;
                             route_handler := chain (inst ++ extra) handler |}] |}]>
                  (routers s)))
            (router hv)
            {| route_method := method_of f; route_path := path hv p;
               route_handler := chain (inst ++ extra) handler |})
    by (by exists rv).
  destruct (registered_frame _ _ _ _ Hreg) as (H1 & H2 & H3 & H4 & H5).
  split; [apply register_Handle |].
  split; [exact Hreg |]. do 4 (split; [done |]). split; [exact H4 |].
  split; [| split; [exact H3 | split; [exact H5 | exact Hany]]].
  rewrite H4. unfold view. by rewrite Hh, Hc.
Qed.

Lemma registration_frame_witness :
  exists s',
    DELETE (H := segment_engine) 1 "/x" (writes "h")
      [Func (around "C" "C'")] two_middleware_heap = Ok tt s'
    /\ hitches s' = hitches two_middleware_heap
    /\ arrays s' = arrays two_middleware_heap
    /\ (forall h', view s' h' = view two_middleware_heap h').
Proof.
  destruct (registration_frame (H := segment_engine) ByDELETE
              two_middleware_heap 1
              {| router := 0; basePath := "";
                 middlewares := {| s_arr := Some 0; s_len := 2; s_cap := 2 |} |}
              {| HandleMethodNotAllowed := false; routes := [] |}
              [around "A" "A'"; around "B" "B'"] [around "C" "C'"]
              "/x" (writes "h")
              eq_refl eq_refl eq_refl eq_refl eq_refl)
    as (s' & rt & Hrun & _ & _ & _ & _ & Hh & Ha & Hv & _).
  exists s'. repeat split; [exact Hrun | exact Hh | exact Ha | exact Hv].
Defined.

(** ** Derivation copies *)

Lemma view_lookup s h hv :
  hitches s !! h = Some hv ->
  view s h = Some {| f_router := router hv; f_basePath := basePath hv;
                     f_middlewares := contents s (middlewares hv) |}.
Proof. unfold view. by intros ->. Qed.

Lemma SubPath_spec s h hv p :
  wf s = true -> hitches s !! h = Some hv ->
  exists s' nv,
    SubPath h p s = Ok (length (hitches s)) s'
    /\ grows s s' /\ wf s' = true /\ routers s' = routers s
    /\ hitches s' !! length (hitches s) = Some nv
    /\ router nv = router hv
    /\ basePath nv = path hv p
    /\ contents s' (middlewares nv) = contents s (middlewares hv)
    /\ (forall a, s_arr (middlewares nv) = Some a -> arrays s !! a = None).
Proof.
  intros Hwf Hh.
  destruct (SubPath_run s h hv p Hwf Hh)
    as (sl' & s' & Hrun & Hh' & Ha' & Hr' & Hsl' & _ & Hc' & Hfresh).
  pose proof (wf_lookup s h hv Hwf Hh) as [_ Hrt]%andb_prop.
  destruct (derived s s' hv sl' (path hv p) Hwf Hh' Ha' Hr' Hsl' Hrt)
    as (Hg & Hwf' & _).
  eexists s', _. split; [exact Hrun |]. do 3 (split; [done |]).
  split; [rewrite Hh'; by apply list_lookup_middle |]. simpl.
  do 3 (split; [done |]). intros a Ea. apply lookup_ge_None. by apply Hfresh.
Qed.

Lemma WithMiddleware_spec `{Runtime} s h hv middleware :
  wf s = true -> hitches s !! h = Some hv ->
  exists s',
    WithMiddleware h middleware s = Ok (length (hitches s)) s'
    /\ grows s s' /\ wf s' = true /\ routers s' = routers s
    /\ view s' (length (hitches s))
       = Some {| f_router := router hv; f_basePath := path hv "";
                 f_middlewares := contents s (middlewares hv) ++ middleware |}.
Proof.
  intros Hwf Hh.
  destruct (WithMiddleware_run s h hv middleware Hwf Hh)
    as (sl' & s' & Hrun & Hh' & Ha' & Hr' & Hsl' & Hc').
  pose proof (wf_lookup s h hv Hwf Hh) as [_ Hrt]%andb_prop.
  destruct (derived s s' hv sl' (path hv "") Hwf Hh' Ha' Hr' Hsl' Hrt)
    as (Hg & Hwf' & Hview).
  exists s'. split; [exact Hrun |]. do 3 (split; [done |]). by rewrite Hview, Hc'.
Qed.

(** C5: on a well-formed heap, [SubPath(p)] returns a [Hitch] that was not
    there before, with the router of the receiver, with the composition of
    the receiver's base path and [p] as its base path, and with a list of
    the same elements in an array no list of the old heap points to; the
    receiver is as it was.  From the base path "/v1/", [SubPath("/users")]
    gives the base path "/v1/users". *)
Theorem SubPath_derives s h hv p :
  wf s = true ->
  hitches s !! h = Some hv ->
  exists c s' nv,
    SubPath h p s = Ok c s'
    /\ hitches s !! c = None
    /\ hitches s' !! c = Some nv
    /\ router nv = router hv
    /\ basePath nv = path hv p
    /\ basePath nv = trimTrailingSlash (basePath hv) +:+ normalizeLeadingSlash p
    /\ contents s' (middlewares nv) = contents s (middlewares hv)
    /\ (forall a, s_arr (middlewares nv) = Some a -> arrays s !! a = None)
    /\ view s' h = view s h
    /\ routers s' = routers s
    /\ wf s' = true
    /\ (basePath hv = "/v1/" -> p = "/users" -> basePath nv = "/v1/users").
Proof.
  intros Hwf Hh.
  destruct (SubPath_spec s h hv p Hwf Hh)
    as (s' & nv & Hrun & Hg & Hwf' & Hr & Hnv & Hrt & Hbp & Hc & Hfresh).
  exists (length (hitches s)), s', nv. split; [exact Hrun |].
  split; [by apply lookup_ge_None |]. do 3 (split; [done |]).
  split; [by rewrite Hbp, path_eq |]. do 2 (split; [done |]).
  split; [| split; [done | split; [done |]]].
  - rewrite (view_lookup s h hv Hh).
    apply (view_mono s s'); [done | done | by apply view_lookup].
  - intros Hb ->. rewrite Hbp. unfold path. by rewrite Hb.
Qed.

Lemma SubPath_derives_witness :
  exists c s' nv,
    SubPath 1 "/users" trailing_slash_heap = Ok c s'
    /\ hitches s' !! c = Some nv
    /\ router nv = 0
    /\ basePath nv = "/v1/users".
Proof.
  destruct (SubPath_derives trailing_slash_heap 1
              {| router := 0; basePath := "/v1/"; middlewares := nil_slice |}
              "/users" eq_refl eq_refl)
    as (c & s' & nv & Hrun & _ & Hnv & Hrt & _ & _ & _ & _ & _ & _ & _ & Hex).
  exists c, s', nv. repeat split; [exact Hrun | exact Hnv | exact Hrt |].
  exact (Hex eq_refl eq_refl).
Defined.

(** C2: on a well-formed heap, after [child := parent.SubPath(x)] and
    [child.WithMiddleware(m)] the [Hitch] of [parent] is the one it was and
    its list has the length and the elements it had; [child] holds a copy
    of them and the façade derived from [child] holds them followed by [m].
    A later [parent.WithMiddleware(m')] changes neither [child] nor the
    façade derived from it, nor [parent]. *)
Theorem derivation_keeps_parent `{Runtime} s parent hv x m :
  wf s = true ->
  hitches s !! parent = Some hv ->
  exists child c2 s2,
    (child <- SubPath parent x ;;
     c2 <- WithMiddleware child m ;;
     ret (child, c2)) s = Ok (child, c2) s2
    /\ hitches s2 !! parent = Some hv
    /\ contents s2 (middlewares hv) = contents s (middlewares hv)
    /\ length (contents s2 (middlewares hv)) = len (middlewares hv)
    /\ view s2 parent = view s parent
    /\ view s2 child
       = Some {| f_router := router hv; f_basePath := path hv x;
                 f_middlewares := contents s (middlewares hv) |}
    /\ view s2 c2
       = Some {| f_router := router hv;
                 f_basePath := trimTrailingSlash (path hv x);
                 f_middlewares := contents s (middlewares hv) ++ m |}
    /\ (forall m', exists p2 s3,
          WithMiddleware parent m' s2 = Ok p2 s3
          /\ view s3 parent = view s parent
          /\ view s3 child = view s2 child
          /\ view s3 c2 = view s2 c2
          /\ view s3 p2
             = Some {| f_router := router hv;
                       f_basePath := trimTrailingSlash (basePath hv);
                       f_middlewares := contents s (middlewares hv) ++ m' |}).
Proof.
  intros Hwf Hh.
  pose proof (wf_lookup s parent hv Hwf Hh) as [Hsl _]%andb_prop.
  destruct (SubPath_spec s parent hv x Hwf Hh)
    as (s1 & nv & Hrun1 & Hg1 & Hwf1 & _ & Hnv & Hrt & Hbp & Hc1 & _).
  destruct (WithMiddleware_spec s1 _ nv m Hwf1 Hnv)
    as (s2 & Hrun2 & Hg2 & Hwf2 & _ & Hv2).
  pose proof (grows_trans _ _ _ Hg1 Hg2) as Hg.
  assert (Hvp : view s2 parent = view s parent).
  { rewrite (view_lookup s parent hv Hh).
    apply (view_mono s s2); [done | done | by apply view_lookup]. }
  assert (Hvc : view s2 (length (hitches s))
                = Some {| f_router := router hv; f_basePath := path hv x;
                          f_middlewares := contents s (middlewares hv) |}).
  { apply (view_mono s1 s2); [done | done |].
    rewrite (view_lookup s1 _ nv Hnv). by rewrite Hrt, Hbp, Hc1. }
  assert (Hcs : contents s2 (middlewares hv) = contents s (middlewares hv))
    by (apply contents_mono; [apply Hg | done]).
  exists (length (hitches s)), (length (hitches s1)), s2.
  split; [| split; [| split; [| split; [| split; [| split; [| split]]]]]].
  - erewrite bind_Ok; [| exact Hrun1]. erewrite bind_Ok; [| exact Hrun2]. done.
  - destruct Hg as (Hp & _). by eapply prefix_lookup_Some.
  - done.
  - rewrite Hcs. by apply contents_length.
  - done.
  - done.
  - rewrite Hv2, Hrt, Hc1. do 2 f_equal.
    rewrite path_empty. by rewrite Hbp.
  - intros m'.
    assert (Hh2 : hitches s2 !! parent = Some hv)
      by (destruct Hg as (Hp & _); by eapply prefix_lookup_Some).
    destruct (WithMiddleware_spec s2 parent hv m' Hwf2 Hh2)
      as (s3 & Hrun3 & Hg3 & _ & _ & Hv3).
    exists (length (hitches s2)), s3. split; [exact Hrun3 |].
    split; [| split; [| split]].
    + rewrite <- Hvp. destruct (view s2 parent) as [v|] eqn:Ev.
      * by apply (view_mono s2 s3).
      * rewrite (view_lookup s2 parent hv Hh2) in Ev. done.
    + rewrite Hvc. by apply (view_mono s2 s3).
    + rewrite Hv2. by apply (view_mono s2 s3).
    + by rewrite Hv3, path_empty, Hcs.
Qed.

Lemma derivation_keeps_parent_witness :
  exists child c2 s2,
    (child <- SubPath 1 "/api" ;;
     c2 <- WithMiddleware (H := doubling) child [Func (around "C" "C'")] ;;
     ret (child, c2)) two_middleware_heap = Ok (child, c2) s2
    /\ view s2 1 = view two_middleware_heap 1.
Proof.
  destruct (derivation_keeps_parent (H := doubling) two_middleware_heap 1
              {| router := 0; basePath := "";
                 middlewares := {| s_arr := Some 0; s_len := 2; s_cap := 2 |} |}
              "/api" [Func (around "C" "C'")] eq_refl eq_refl)
    as (child & c2 & s2 & Hrun & _ & _ & _ & Hv & _).
  exists child, c2, s2. split; [exact Hrun | exact Hv].
Defined.

(** ** Middleware attachment *)

(** C7, as amended: on a well-formed heap, [WithMiddleware(mw...)] returns
    the façade [SubPath("")] returns, with the same router, with the
    receiver's base path less its trailing slash as base path, and with the
    elements of the receiver's list followed by [mw] in argument order; the
    receiver keeps its [Hitch] and its list.  When the receiver's base path
    has no trailing slash this is the attachment the specification words:
    same base path, copied list, values appended. *)
Theorem WithMiddleware_as_SubPath `{Runtime} s h hv mw :
  wf s = true ->
  hitches s !! h = Some hv ->
  exists c s1 s',
    SubPath h "" s = Ok c s1
    /\ view s1 c
       = Some {| f_router := router hv;
                 f_basePath := trimTrailingSlash (basePath hv);
                 f_middlewares := contents s (middlewares hv) |}
    /\ WithMiddleware h mw s = Ok c s'
    /\ view s' c
       = Some {| f_router := router hv;
                 f_basePath := trimTrailingSlash (basePath hv);
                 f_middlewares := contents s (middlewares hv) ++ mw |}
    /\ hitches s' !! h = Some hv
    /\ view s' h = view s h
    /\ (ends_with_slash (basePath hv) = false ->
        view s' c = option_map (fun v => withMiddleware_spec v mw) (view s h)).
Proof.
  intros Hwf Hh.
  destruct (SubPath_spec s h hv "" Hwf Hh)
    as (s1 & nv & Hrun1 & _ & _ & _ & Hnv & Hrt & Hbp & Hc1 & _).
  destruct (WithMiddleware_spec s h hv mw Hwf Hh)
    as (s' & Hrun & Hg & _ & _ & Hv).
  assert (Hh' : hitches s' !! h = Some hv)
    by (destruct Hg as (Hp & _); by eapply prefix_lookup_Some).
  rewrite path_empty in Hv, Hbp.
  exists (length (hitches s)), s1, s'. split; [exact Hrun1 |].
  split; [rewrite (view_lookup s1 _ nv Hnv); by rewrite Hrt, Hbp, Hc1 |].
  split; [exact Hrun |]. split; [exact Hv |]. split; [exact Hh' |]. split.
  - rewrite (view_lookup s h hv Hh).
    apply (view_mono s s'); [done | done | by apply view_lookup].
  - intros Hns. rewrite Hv, (view_lookup s h hv Hh). simpl.
    unfold withMiddleware_spec. simpl. by rewrite trimTrailingSlash_id.
Qed.

Lemma WithMiddleware_as_SubPath_witness :
  exists c s1 s',
    SubPath 1 "" two_middleware_heap = Ok c s1
    /\ WithMiddleware (H := doubling) 1 [Func (around "C" "C'")] two_middleware_heap
       = Ok c s'
    /\ view s' c
       = Some {| f_router := 0; f_basePath := "";
                 f_middlewares :=
                   [Func (around "A" "A'"); Func (around "B" "B'");
                    Func (around "C" "C'")] |}
    /\ view s' 1 = view two_middleware_heap 1.
Proof.
  destruct (WithMiddleware_as_SubPath (H := doubling) two_middleware_heap 1
              {| router := 0; basePath := "";
                 middlewares := {| s_arr := Some 0; s_len := 2; s_cap := 2 |} |}
              [Func (around "C" "C'")] eq_refl eq_refl)
    as (c & s1 & s' & Hrun1 & _ & Hrun & Hv & _ & Hvh & _).
  exists c, s1, s'. repeat split; [exact Hrun1 | exact Hrun | exact Hv | exact Hvh].
Defined.

(** C7 fails as stated: the façade [WithMiddleware] derives from a façade
    with base path "/v1/" has base path "/v1", not the same base path. *)
Lemma WithMiddleware_base_path_counterexample :
  exists c s' v,
    WithMiddleware (H := doubling) 1 [Func (around "A" "A'")] trailing_slash_heap
    = Ok c s'
    /\ option_map f_basePath (view trailing_slash_heap 1) = Some "/v1/"
    /\ view s' c = Some v
    /\ f_basePath v = "/v1"
    /\ view s' c
       <> option_map (fun v => withMiddleware_spec v [Func (around "A" "A'")])
            (view trailing_slash_heap 1).
Proof.
  eexists _, _, _. split; [reflexivity |]. split; [reflexivity |].
  split; [reflexivity |]. split; [reflexivity |].
  intros Heq. apply (f_equal (option_map f_basePath)) in Heq. discriminate Heq.
Qed.

(** ** Registration at the base path *)

(** C4, as amended: [path(p)] is [trimTrailingSlash] of the base path
    followed by [normalizeLeadingSlash] of [p]; for the empty segment it is
    [trimTrailingSlash] of the base path, which is the base path itself when
    that has no trailing slash; and [Handle] called with the empty path on
    a well-formed heap registers its route at that path. *)
Theorem path_composition `{httprouter.Engine}
    s h hv rv inst extra method handler p :
  wf s = true ->
  hitches s !! h = Some hv ->
  contents s (middlewares hv) = map Func inst ->
  routers s !! router hv = Some rv ->
  httprouter.accepts (routes rv) method (path hv "") = true ->
  path hv p = trimTrailingSlash (basePath hv) +:+ normalizeLeadingSlash p
  /\ path hv "" = trimTrailingSlash (basePath hv)
  /\ (ends_with_slash (basePath hv) = false -> path hv "" = basePath hv)
  /\ exists s' rt,
       Handle h method "" handler (map Func extra) s = Ok tt s'
       /\ registered s s' (router hv) rt
       /\ route_method rt = method
       /\ route_path rt = trimTrailingSlash (basePath hv)
       /\ (ends_with_slash (basePath hv) = false -> route_path rt = basePath hv).
Proof.
  intros Hwf Hh Hc Hr Hacc.
  split; [apply path_eq |]. split; [apply path_empty |].
  split; [intros Hns; by rewrite path_empty, trimTrailingSlash_id |].
  eexists _, _. split; [by eapply Handle_run |].
  split; [by exists rv |]. split; [done |]. simpl.
  split; [apply path_empty |]. intros Hns. by rewrite path_empty, trimTrailingSlash_id.
Qed.

Lemma path_composition_witness :
  path {| router := 0; basePath := "/v1/"; middlewares := nil_slice |} "users"
  = "/v1" +:+ "/users"
  /\ exists s' rt,
       Handle (H := segment_engine) 1 "GET" "" (writes "h") [] trailing_slash_heap
       = Ok tt s'
       /\ registered trailing_slash_heap s' 0 rt
       /\ route_path rt = "/v1".
Proof.
  destruct (path_composition (H := segment_engine) trailing_slash_heap 1
              {| router := 0; basePath := "/v1/"; middlewares := nil_slice |}
              {| HandleMethodNotAllowed := false; routes := [] |}
              [] [] "GET" (writes "h") "users"
              eq_refl eq_refl eq_refl eq_refl eq_refl)
    as (Hp & _ & _ & s' & rt & Hrun & Hreg & _ & Hrp & _).
  split; [exact Hp |]. exists s', rt. repeat split; [exact Hrun | exact Hreg | exact Hrp].
Defined.

(** C4 fails as stated: for the base path "/v1/" the empty segment gives
    "/v1", which is not the base path, and [Handle] with the empty path
    registers there. *)
Lemma path_empty_counterexample :
  let hv := {| router := 0; basePath := "/v1/"; middlewares := nil_slice |} in
  hitches trailing_slash_heap !! 1 = Some hv
  /\ path hv "" = "/v1"
  /\ path hv "" <> basePath hv
  /\ exists s',
       Handle (H := segment_engine) 1 "GET" "" (writes "h") [] trailing_slash_heap
       = Ok tt s'
       /\ option_map (fun rv => map route_path (routes rv)) (routers s' !! 0)
          = Some ["/v1"].
Proof.
  split; [reflexivity |]. split; [reflexivity |]. split; [discriminate |].
  eexists. split; reflexivity.
Qed.

(** ** Parameters *)

(** C9: for a request that is there, [Params] returns and leaves the world
    as it is; it gives the empty collection when no bindings are attached
    to the context of the request and the attached bindings otherwise.
    When the router dispatches the request to a route matched with the
    bindings [ps], the handler of the route is served a request for which
    [Params] gives exactly [ps]. *)
Theorem Params_total `{httprouter.Engine} req world r :
  requests world !! req = Some r ->
  Params req world = Ok (httprouter.ParamsFromContext (ctx r)) world
  /\ (ctx_params (ctx r) = None -> Params req world = Ok [] world)
  /\ (forall ps, ctx_params (ctx r) = Some ps -> Params req world = Ok ps world)
  /\ (forall rv w rt ps,
        httprouter.lookup (routes rv) (Method r) (URLPath r) = Some (rt, ps) ->
        exists req' world',
          httprouter.ServeHTTP rv w req world
          = (ServeHTTP (route_handler rt) w req' ;;; ret httprouter.Served) world'
          /\ responses world' = responses world
          /\ Params req' world' = Ok ps world').
Proof.
  intros Hr.
  assert (Hp : Params req world = Ok (httprouter.ParamsFromContext (ctx r)) world).
  { unfold Params, Request_Context, bind. by rewrite Hr. }
  split; [exact Hp |]. split; [| split].
  - intros Hn. rewrite Hp. unfold httprouter.ParamsFromContext. by rewrite Hn.
  - intros ps Hs. rewrite Hp. unfold httprouter.ParamsFromContext. by rewrite Hs.
  - intros rv w rt ps Hl. eexists _, _. split; [| split].
    + unfold httprouter.ServeHTTP. rewrite Hr, Hl.
      unfold bind at 1. unfold Request_WithContext. rewrite Hr. reflexivity.
    + done.
    + unfold Params, Request_Context, bind. simpl.
      by rewrite list_lookup_middle.
Qed.

Lemma Params_total_witness :
  Params 0
    {| requests := [{| Method := "GET"; URLPath := "/about"; ctx := Background |}];
       responses := [[]] |}
  = Ok []
      {| requests := [{| Method := "GET"; URLPath := "/about"; ctx := Background |}];
         responses := [[]] |}.
Proof.
  exact (proj1 (proj2 (Params_total (H := segment_engine) 0
           {| requests := [{| Method := "GET"; URLPath := "/about"; ctx := Background |}];
              responses := [[]] |}
           {| Method := "GET"; URLPath := "/about"; ctx := Background |}
           eq_refl)) eq_refl).
Defined.

(** A request for "/users/42" dispatched to the pattern "/users/:id": the
    handler reads the binding of "id" and writes "42". *)
Lemma Params_named_segment_example :
  httprouter.match_path (Engine := segment_engine) "/users/:id" "/users/42"
  = Some [("id", "42")]
  /\ httprouter.ServeHTTP (H := segment_engine)
       {| HandleMethodNotAllowed := false;
          routes := [{| route_method := "GET"; route_path := "/users/:id";
                        route_handler := echo_param "id" |}] |}
       0 0
       {| requests := [{| Method := "GET"; URLPath := "/users/42"; ctx := Background |}];
          responses := [[]] |}
     = Ok httprouter.Served
         {| requests :=
              [{| Method := "GET"; URLPath := "/users/42"; ctx := Background |};
               {| Method := "GET"; URLPath := "/users/42";
                  ctx := {| ctx_params := Some [("id", "42")] |} |}];
            responses := [["42"]] |}.
Proof. split; reflexivity. Qed.

(** ** Construction *)

Create HintDb keeps.

Lemma keeps_ret {A} (a : A) : keeps_routers (ret a).
Proof. by intros s a' s' [= _ <-]. Qed.

Lemma keeps_throw {A} e : keeps_routers (@throw Heap A e).
Proof. intros s a s' Hk. discriminate Hk. Qed.

Lemma keeps_bind {A B} (c : M Heap A) (k : A -> M Heap B) :
  keeps_routers c -> (forall a, keeps_routers (k a)) -> keeps_routers (x <- c ;; k x).
Proof.
  intros Hc Hk s b s'' (a & s' & H1 & H2)%bind_inv.
  rewrite (Hk _ _ _ _ H2). by eapply Hc.
Qed.

Lemma keeps_deref h : keeps_routers (deref h).
Proof. by intros s hv s' [-> _]%deref_inv. Qed.

Lemma keeps_new_Hitch hv : keeps_routers (new_Hitch hv).
Proof. by intros s a s' [= _ <-]. Qed.

Lemma keeps_assign_middlewares h sl : keeps_routers (assign_middlewares h sl).
Proof.
  intros s a s'. unfold assign_middlewares.
  destruct (hitches s !! h); [by intros [= _ <-] | done].
Qed.

Lemma keeps_make n : keeps_routers (make n).
Proof. by intros s a s' [= _ <-]. Qed.

Lemma keeps_elems sl : keeps_routers (elems sl).
Proof. by intros s xs s' ->%elems_state. Qed.

Lemma keeps_store sl from vs : keeps_routers (store sl from vs).
Proof.
  intros s a s'. unfold store. destruct vs as [|v vs]; [by intros [= _ <-] |].
  destruct (s_arr sl) as [arr|]; [| done].
  destruct (arrays s !! arr); [by intros [= _ <-] | done].
Qed.

#[local] Hint Resolve keeps_ret keeps_throw keeps_deref keeps_new_Hitch
  keeps_assign_middlewares keeps_make keeps_elems keeps_store : keeps.

Lemma keeps_copy dst src : keeps_routers (copy dst src).
Proof. unfold copy. repeat (apply keeps_bind; [auto with keeps | intros ?]). auto with keeps. Qed.

Lemma keeps_append `{Runtime} sl vs : keeps_routers (append sl vs).
Proof.
  unfold append. destruct (_ <=? _).
  - repeat (apply keeps_bind; [auto with keeps | intros ?]). auto with keeps.
  - apply keeps_bind; [auto with keeps | intros xs]. by intros s a s' [= _ <-].
Qed.

Lemma keeps_SubPath h p : keeps_routers (SubPath h p).
Proof.
  unfold SubPath. apply keeps_bind; [auto with keeps | intros hv].
  apply keeps_bind; [| auto with keeps].
  destruct (0 <? _); [| auto with keeps].
  apply keeps_bind; [auto with keeps | intros c].
  apply keeps_bind; [apply keeps_copy | auto with keeps].
Qed.

Lemma keeps_WithMiddleware `{Runtime} h middleware :
  keeps_routers (WithMiddleware h middleware).
Proof.
  unfold WithMiddleware. apply keeps_bind; [apply keeps_SubPath | intros c].
  apply keeps_bind; [auto with keeps | intros nv].
  apply keeps_bind; [apply keeps_append | intros sl].
  apply keeps_bind; auto with keeps.
Qed.

Lemma New_run `{httprouter.Engine} s :
  New s
  = Ok (length (hitches s))
       {| hitches := hitches s ++
            [{| router := length (routers s); basePath := "";
                middlewares := nil_slice |}];
          arrays := arrays s;
          routers := routers s ++
            [{| HandleMethodNotAllowed := false; routes := [] |}] |}.
Proof.
  unfold New, httprouter.New, bind, httprouter.assign_HandleMethodNotAllowed.
  simpl. rewrite list_lookup_middle by done. simpl.
  unfold new_Hitch, set_hitches. simpl. do 2 f_equal.
  rewrite insert_app_r_alt by done. by rewrite Nat.sub_diag.
Qed.

Lemma flag_off_keeps s s' r : routers s' = routers s -> flag_off s r -> flag_off s' r.
Proof. unfold flag_off. by intros ->. Qed.

(** No call of the package turns the flag of a router on. *)
Lemma run_op_flag_off `{Runtime} `{httprouter.Engine} o s s' r :
  run_op o s = Ok tt s' -> flag_off s r -> flag_off s' r.
Proof.
  destruct o as [|h p|h mw|h handler|f h p handler mw]; simpl.
  - intros (a & s1 & H1 & [= <-])%bind_inv (rv & Hr & Hf).
    rewrite New_run in H1. injection H1 as _ <-. exists rv. split; [| done].
    simpl. rewrite lookup_app_l; [done | by eapply lookup_lt_Some].
  - intros (a & s1 & H1 & [= <-])%bind_inv. apply flag_off_keeps.
    by eapply keeps_SubPath.
  - intros (a & s1 & H1 & [= <-])%bind_inv. apply flag_off_keeps.
    by eapply keeps_WithMiddleware.
  - intros (a & s1 & H1 & [= <-])%bind_inv. apply flag_off_keeps.
    by eapply keeps_WithMiddleware.
  - rewrite register_Handle.
    intros (hv & wrapped & _ & Hreg)%Handle_inv (rv & Hr & Hf).
    destruct (decide (r = router hv)) as [-> | Hne].
    + destruct (registered_lookup _ _ _ _ Hreg) as (rv' & Hr' & Hr'').
      assert (rv' = rv) as -> by congruence. eexists. split; [exact Hr'' | done].
    + destruct (registered_frame _ _ _ _ Hreg) as (_ & _ & _ & _ & Ho).
      exists rv. by rewrite Ho.
Qed.

Lemma run_ops_flag_off `{Runtime} `{httprouter.Engine} os s s' r :
  run_ops os s = Ok tt s' -> flag_off s r -> flag_off s' r.
Proof.
  revert s. induction os as [|o os IH]; intros s; simpl.
  - by intros [= <-].
  - intros ([] & s1 & H1 & H2)%bind_inv Hf.
    eapply IH; [done |]. by eapply run_op_flag_off.
Qed.

(** With the flag off, dispatch ends in "not found" whenever no route of
    the request's method matches, whatever other methods the path is
    registered for, and never in "method not allowed". *)
Lemma not_found_when_off `{httprouter.Engine} rv w req world r :
  HandleMethodNotAllowed rv = false ->
  requests world !! req = Some r ->
  httprouter.lookup (routes rv) (Method r) (URLPath r) = None ->
  httprouter.ServeHTTP rv w req world = Ok httprouter.NotFound world.
Proof. intros Hf Hr Hl. unfold httprouter.ServeHTTP. by rewrite Hr, Hl, Hf. Qed.

Lemma never_method_not_allowed `{httprouter.Engine} rv w req world st world' :
  HandleMethodNotAllowed rv = false ->
  httprouter.ServeHTTP rv w req world = Ok st world' ->
  st <> httprouter.MethodNotAllowed.
Proof.
  intros Hf. unfold httprouter.ServeHTTP.
  destruct (requests world !! req) as [r|]; [| done].
  destruct (httprouter.lookup _ _ _) as [[rt ps]|].
  - intros (req' & w1 & _ & (u & w2 & _ & [= <- _])%bind_inv)%bind_inv. done.
  - rewrite Hf. simpl. by intros [= <- _].
Qed.

(** C8: [New], which takes no argument, returns on every heap: a [Hitch]
    and a router that were not there before, the [Hitch] with that router,
    the empty base path and no middleware, the router with no route and
    with its flag off whatever value the router library starts it with.
    After any calls of the package that follow, the flag of that router is
    still off, so a request whose method matches no route is answered "not
    found", also for a path registered under other methods, and no request
    is answered "method not allowed". *)
Theorem New_selects_not_found `{Runtime} `{httprouter.Engine} s :
  exists h r s',
    New s = Ok h s'
    /\ hitches s !! h = None
    /\ routers s !! r = None
    /\ view s' h = Some {| f_router := r; f_basePath := ""; f_middlewares := [] |}
    /\ routers s' !! r = Some {| HandleMethodNotAllowed := false; routes := [] |}
    /\ (forall os s'',
          run_ops os s' = Ok tt s'' ->
          exists rv,
            routers s'' !! r = Some rv
            /\ HandleMethodNotAllowed rv = false
            /\ (forall w req world rq,
                  requests world !! req = Some rq ->
                  httprouter.lookup (routes rv) (Method rq) (URLPath rq) = None ->
                  httprouter.ServeHTTP rv w req world
                  = Ok httprouter.NotFound world)
            /\ (forall w req world st world',
                  httprouter.ServeHTTP rv w req world = Ok st world' ->
                  st <> httprouter.MethodNotAllowed)).
Proof.
  eexists _, (length (routers s)), _. split; [apply New_run |].
  split; [by apply lookup_ge_None |]. split; [by apply lookup_ge_None |].
  split; [unfold view; simpl; by rewrite list_lookup_middle |].
  assert (Hr : forall hs,
    routers {| hitches := hs; arrays := arrays s;
               routers := routers s ++
                 [{| HandleMethodNotAllowed := false; routes := [] |}] |}
      !! length (routers s)
    = Some {| HandleMethodNotAllowed := false; routes := [] |})
    by (intros hs; simpl; by apply list_lookup_middle).
  split; [apply Hr |].
  intros os s'' Hrun.
  destruct (run_ops_flag_off os _ s'' (length (routers s)) Hrun) as (rv & Hrv & Hf).
  { eexists. split; [apply Hr | done]. }
  exists rv. split; [done |]. split; [done |]. split.
  - intros w req world rq. by apply not_found_when_off.
  - intros w req world st world'. by apply never_method_not_allowed.
Qed.

(** A path registered for GET and requested with POST: "not found" from
    the router [New] makes, "method not allowed" had the flag been left
    on. *)
Lemma New_not_found_example :
  exists root s rv,
    (root <- New (H := segment_engine) ;;
     GET (H := segment_engine) root "/x" (writes "h") [] ;;;
     ret root) empty_heap = Ok root s
    /\ routers s !! 0 = Some rv
    /\ let world :=
         {| requests := [{| Method := "POST"; URLPath := "/x"; ctx := Background |}];
            responses := [[]] |} in
       httprouter.ServeHTTP (H := segment_engine) rv 0 0 world
       = Ok httprouter.NotFound world
       /\ httprouter.ServeHTTP (H := segment_engine)
            {| HandleMethodNotAllowed := true; routes := routes rv |} 0 0 world
          = Ok httprouter.MethodNotAllowed world.
Proof. eexists _, _, _. split; [reflexivity |]. split; [reflexivity |]. split; reflexivity. Qed.

(** ** Every heap the package builds is well formed *)

Lemma SubPath_receiver h p s c s' :
  SubPath h p s = Ok c s' -> exists hv, hitches s !! h = Some hv.
Proof.
  unfold SubPath. intros (hv & s1 & [_ Hh]%deref_inv & _)%bind_inv. eauto.
Qed.

Lemma WithMiddleware_receiver `{Runtime} h middleware s c s' :
  WithMiddleware h middleware s = Ok c s' -> exists hv, hitches s !! h = Some hv.
Proof.
  unfold WithMiddleware. intros (c1 & s1 & Hsub & _)%bind_inv.
  by eapply SubPath_receiver.
Qed.

Lemma New_wf `{httprouter.Engine} s h s' : wf s = true -> New s = Ok h s' -> wf s' = true.
Proof.
  intros Hwf. rewrite New_run. intros [= _ <-].
  eapply (wf_snoc s); [done | | reflexivity |].
  - repeat split; simpl; [by apply prefix_app_r | done | rewrite length_app; lia].
  - unfold wf_Hitch. simpl. apply Nat.ltb_lt. rewrite length_app. simpl. lia.
Qed.

Lemma run_op_wf `{Runtime} `{httprouter.Engine} o s s' :
  wf s = true -> run_op o s = Ok tt s' -> wf s' = true.
Proof.
  intros Hwf. destruct o as [|h p|h mw|h handler|f h p handler mw]; simpl.
  - intros (a & s1 & H1 & [= <-])%bind_inv. by eapply New_wf.
  - intros (a & s1 & H1 & [= <-])%bind_inv.
    destruct (SubPath_receiver _ _ _ _ _ H1) as [hv Hh].
    destruct (SubPath_spec s h hv p Hwf Hh) as (s2 & nv & Hrun & _ & Hwf2 & _).
    congruence.
  - intros (a & s1 & H1 & [= <-])%bind_inv.
    destruct (WithMiddleware_receiver _ _ _ _ _ H1) as [hv Hh].
    destruct (WithMiddleware_spec s h hv mw Hwf Hh) as (s2 & Hrun & _ & Hwf2 & _).
    congruence.
  - intros (a & s1 & H1 & [= <-])%bind_inv.
    destruct (WithMiddleware_receiver _ _ _ _ _ H1) as [hv Hh].
    destruct (WithMiddleware_spec s h hv [handlerMiddleware handler] Hwf Hh)
      as (s2 & Hrun & _ & Hwf2 & _).
    unfold WithHandlerMiddleware in H1. congruence.
  - rewrite register_Handle. intros (hv & wrapped & _ & Hreg)%Handle_inv.
    by eapply registered_wf.
Qed.

(** The hypothesis [wf s = true] of the statements above holds of every
    heap a client reaches from the empty one. *)
Lemma reachable_wf `{Runtime} `{httprouter.Engine} os s :
  run_ops os empty_heap = Ok tt s -> wf s = true.
Proof.
  assert (Hgen : forall s0, wf s0 = true -> run_ops os s0 = Ok tt s -> wf s = true).
  { induction os as [|o os IH]; intros s0 Hwf; simpl.
    - by intros [= <-].
    - intros ([] & s1 & H1 & H2)%bind_inv.
      eapply IH; [| done]. by eapply run_op_wf. }
  by apply Hgen.
Qed.

(** * Further properties of the package *)

(** ** Slashes in [path] *)

Lemma ends_with_slash_app a b :
  b <> "" -> ends_with_slash (a +:+ b) = ends_with_slash b.
Proof.
  intros Hb. induction a as [|c a IH]; [done |].
  rewrite str_app_cons. simpl. destruct (a +:+ b) eqn:E; [| done].
  destruct a; [by rewrite str_app_nil_l in E | by rewrite str_app_cons in E].
Qed.

Lemma trimTrailingSlash_app a b :
  b <> "" -> trimTrailingSlash (a +:+ b) = a +:+ trimTrailingSlash b.
Proof.
  intros Hb. induction a as [|c a IH]; [done |].
  rewrite !str_app_cons. simpl. destruct (a +:+ b) eqn:E.
  - destruct a; [by rewrite str_app_nil_l in E | by rewrite str_app_cons in E].
  - by rewrite <- IH.
Qed.

Lemma eqb_empty_false p : (p =? "")%string = false -> p <> "".
Proof. by intros H ->. Qed.

Lemma normalizeLeadingSlash_nonempty p : p <> "" -> normalizeLeadingSlash p <> "".
Proof. destruct p as [|c p]; [done |]. intros _. simpl. by destruct (Ascii.eqb c "/"). Qed.

Lemma normalizeLeadingSlash_bare p :
  p <> "" -> strings.HasPrefix p "/" = false -> normalizeLeadingSlash p = "/" +:+ p.
Proof.
  destruct p as [|c p]; [done |]. intros _. rewrite HasPrefix_slash. simpl.
  by intros ->.
Qed.

Lemma normalizeLeadingSlash_idem p :
  normalizeLeadingSlash (normalizeLeadingSlash p) = normalizeLeadingSlash p.
Proof.
  destruct p as [|c p]; [done |]. simpl.
  destruct (Ascii.eqb c "/") eqn:E; simpl; [by rewrite E | done].
Qed.

Lemma normalizeLeadingSlash_app p x :
  p <> "" ->
  normalizeLeadingSlash (normalizeLeadingSlash p +:+ x) = normalizeLeadingSlash p +:+ x.
Proof.
  destruct p as [|c p]; [done |]. intros _. simpl.
  destruct (Ascii.eqb c "/") eqn:E; rewrite str_app_cons; simpl; [by rewrite E | done].
Qed.

Lemma ends_with_slash_normalised p :
  p <> "" -> ends_with_slash (normalizeLeadingSlash p) = ends_with_slash p.
Proof.
  destruct p as [|c p]; [done |]. intros _. simpl normalizeLeadingSlash.
  by destruct (Ascii.eqb c "/").
Qed.

(** X1: a slash at the end of the base path and a slash at the start of the
    segment are both optional: for a base path [b] that does not end in a
    slash and a non-empty segment [p] that does not start with one, the
    bases [b] and [b/] joined with the segments [p] and [/p] all give
    [b/p]. *)
Theorem path_slashes_optional (r r' : nat) (ms ms' : slice) (b p : string) :
  ends_with_slash b = false ->
  (p =? "")%string = false ->
  strings.HasPrefix p "/" = false ->
  let plain := {| router := r; basePath := b; middlewares := ms |} in
  let slashed := {| router := r'; basePath := b +:+ "/"; middlewares := ms' |} in
  path plain p = b +:+ "/" +:+ p
  /\ path plain ("/" +:+ p) = b +:+ "/" +:+ p
  /\ path slashed p = b +:+ "/" +:+ p
  /\ path slashed ("/" +:+ p) = b +:+ "/" +:+ p.
Proof.
  intros Hb Hp%eqb_empty_false Hs. simpl.
  rewrite !path_eq. simpl basePath.
  rewrite <- (TrimSuffix_slash (b +:+ "/")), TrimSuffix_app.
  rewrite trimTrailingSlash_id by done.
  rewrite normalizeLeadingSlash_bare by done.
  change (normalizeLeadingSlash ("/" +:+ p)) with ("/" +:+ p). done.
Qed.

Lemma path_slashes_optional_witness :
  path {| router := 0; basePath := "/v1/"; middlewares := nil_slice |} "/users"
  = "/v1" +:+ "/" +:+ "users".
Proof.
  exact (proj2 (proj2 (proj2
    (path_slashes_optional 0 0 nil_slice nil_slice "/v1" "users"
       eq_refl eq_refl eq_refl)))).
Defined.

(** X2: the composed path ends in a slash exactly when the segment does,
    for a non-empty segment; for the empty segment it does not end in a
    slash unless the base path ends in two. *)
Theorem path_trailing_slash (hv : Hitch) (p : string) :
  (p =? "")%string = false ->
  ends_with_slash (path hv p) = ends_with_slash p
  /\ (strings.HasSuffix (basePath hv) "//" = false ->
      ends_with_slash (path hv "") = false).
Proof.
  intros Hp%eqb_empty_false. split.
  - rewrite path_eq, ends_with_slash_app by (by apply normalizeLeadingSlash_nonempty).
    by apply ends_with_slash_normalised.
  - intros Hb. rewrite path_empty. by apply trimmed_no_slash.
Qed.

Lemma path_trailing_slash_witness :
  ends_with_slash
    (path {| router := 0; basePath := "/v1"; middlewares := nil_slice |} "users/")
  = true.
Proof.
  exact (proj1 (path_trailing_slash
    {| router := 0; basePath := "/v1"; middlewares := nil_slice |} "users/" eq_refl)).
Defined.

(** ** Derivations compose *)

Lemma view_Some_inv s h v :
  view s h = Some v ->
  exists hv, hitches s !! h = Some hv
    /\ router hv = f_router v /\ basePath hv = f_basePath v
    /\ contents s (middlewares hv) = f_middlewares v.
Proof.
  unfold view. destruct (hitches s !! h) as [hv|]; [| done].
  intros [= <-]. by exists hv.
Qed.

Lemma SubPath_view s h hv p :
  wf s = true -> hitches s !! h = Some hv ->
  exists s',
    SubPath h p s = Ok (length (hitches s)) s'
    /\ grows s s' /\ wf s' = true /\ routers s' = routers s
    /\ view s' (length (hitches s))
       = Some {| f_router := router hv; f_basePath := path hv p;
                 f_middlewares := contents s (middlewares hv) |}.
Proof.
  intros Hwf Hh.
  destruct (SubPath_spec s h hv p Hwf Hh)
    as (s' & nv & Hrun & Hg & Hwf' & Hr & Hnv & Hrt & Hbp & Hc & _).
  exists s'. split; [exact Hrun |]. do 3 (split; [done |]).
  rewrite (view_lookup s' _ nv Hnv). by rewrite Hrt, Hbp, Hc.
Qed.

Lemma path_of_basePath hv b p :
  basePath hv = b -> path hv p = trimTrailingSlash b +:+ normalizeLeadingSlash p.
Proof. intros <-. apply path_eq. Qed.

(** X3: sub-scopes nest.  On a well-formed heap, [h.SubPath(p).SubPath(q)]
    with [p] not empty is a façade with the router and the middleware of
    [h] whose base path is the trimmed base path of [h], then [p] with its
    leading slash and without its trailing one, then [q] with its leading
    slash; when [p] has no trailing slash, a single [SubPath] with the two
    normalised segments in a row gives the same façade. *)
Theorem SubPath_nested s h hv p q :
  wf s = true ->
  hitches s !! h = Some hv ->
  (p =? "")%string = false ->
  exists c1 c2 s2,
    (c1 <- SubPath h p ;; c2 <- SubPath c1 q ;; ret (c1, c2)) s = Ok (c1, c2) s2
    /\ view s2 c2
       = Some {| f_router := router hv;
                 f_basePath :=
                   trimTrailingSlash (basePath hv)
                   +:+ (trimTrailingSlash (normalizeLeadingSlash p)
                        +:+ normalizeLeadingSlash q);
                 f_middlewares := contents s (middlewares hv) |}
    /\ view s2 h = view s h
    /\ (ends_with_slash p = false ->
        exists c3 s3,
          SubPath h (normalizeLeadingSlash p +:+ normalizeLeadingSlash q) s
          = Ok c3 s3
          /\ view s3 c3 = view s2 c2).
Proof.
  intros Hwf Hh Hp%eqb_empty_false.
  destruct (SubPath_view s h hv p Hwf Hh) as (s1 & Hrun1 & Hg1 & Hwf1 & _ & Hv1).
  destruct (view_Some_inv _ _ _ Hv1) as (nv & Hnv & Hrt & Hbp & Hc). simpl in *.
  destruct (SubPath_view s1 _ nv q Hwf1 Hnv) as (s2 & Hrun2 & Hg2 & _ & _ & Hv2).
  assert (Hbase : path nv q
            = trimTrailingSlash (basePath hv)
              +:+ (trimTrailingSlash (normalizeLeadingSlash p)
                   +:+ normalizeLeadingSlash q)).
  { rewrite (path_of_basePath nv _ q Hbp), path_eq.
    rewrite trimTrailingSlash_app by (by apply normalizeLeadingSlash_nonempty).
    apply str_app_assoc. }
  exists (length (hitches s)), (length (hitches s1)), s2.
  split; [| split; [| split]].
  - erewrite bind_Ok; [| exact Hrun1]. erewrite bind_Ok; [| exact Hrun2]. done.
  - by rewrite Hv2, Hrt, Hc, Hbase.
  - rewrite (view_lookup s h hv Hh).
    apply (view_mono s s2);
      [done | by eapply grows_trans | by apply view_lookup].
  - intros He.
    destruct (SubPath_view s h hv
                (normalizeLeadingSlash p +:+ normalizeLeadingSlash q) Hwf Hh)
      as (s3 & Hrun3 & _ & _ & _ & Hv3).
    exists (length (hitches s)), s3. split; [exact Hrun3 |].
    rewrite Hv3, Hv2, Hrt, Hc, Hbase. do 2 f_equal.
    rewrite path_eq, normalizeLeadingSlash_app by done. f_equal. f_equal.
    symmetry. apply trimTrailingSlash_id.
    by rewrite ends_with_slash_normalised.
Qed.

Lemma SubPath_nested_witness :
  exists c1 c2 s2,
    (c1 <- SubPath 1 "api/" ;; c2 <- SubPath c1 "users" ;; ret (c1, c2))
      trailing_slash_heap = Ok (c1, c2) s2
    /\ option_map f_basePath (view s2 c2) = Some "/v1/api/users".
Proof.
  destruct (SubPath_nested trailing_slash_heap 1
              {| router := 0; basePath := "/v1/"; middlewares := nil_slice |}
              "api/" "users" eq_refl eq_refl eq_refl)
    as (c1 & c2 & s2 & Hrun & Hv & _).
  exists c1, c2, s2. split; [exact Hrun |]. rewrite Hv. reflexivity.
Defined.

(** X4: attaching middleware in two calls gives the list one call gives.
    On a well-formed heap, [h.WithMiddleware(a...).WithMiddleware(b...)]
    and [h.WithMiddleware(a..., b...)] are façades with the router of [h]
    and the middleware of [h] followed by [a] and then [b]; their base
    paths are the base path of [h] trimmed twice and trimmed once, the same
    unless it ends in two slashes. *)
Theorem WithMiddleware_twice `{Runtime} s h hv a b :
  wf s = true ->
  hitches s !! h = Some hv ->
  exists c1 c2 s2 c3 s3,
    (c1 <- WithMiddleware h a ;; c2 <- WithMiddleware c1 b ;; ret (c1, c2)) s
    = Ok (c1, c2) s2
    /\ WithMiddleware h (a ++ b) s = Ok c3 s3
    /\ view s2 c2
       = Some {| f_router := router hv;
                 f_basePath := trimTrailingSlash (trimTrailingSlash (basePath hv));
                 f_middlewares := contents s (middlewares hv) ++ a ++ b |}
    /\ view s3 c3
       = Some {| f_router := router hv;
                 f_basePath := trimTrailingSlash (basePath hv);
                 f_middlewares := contents s (middlewares hv) ++ a ++ b |}
    /\ (strings.HasSuffix (basePath hv) "//" = false -> view s2 c2 = view s3 c3).
Proof.
  intros Hwf Hh.
  destruct (WithMiddleware_spec s h hv a Hwf Hh) as (s1 & Hrun1 & _ & Hwf1 & _ & Hv1).
  destruct (view_Some_inv _ _ _ Hv1) as (nv & Hnv & Hrt & Hbp & Hc). simpl in *.
  destruct (WithMiddleware_spec s1 _ nv b Hwf1 Hnv) as (s2 & Hrun2 & _ & _ & _ & Hv2).
  destruct (WithMiddleware_spec s h hv (a ++ b) Hwf Hh) as (s3 & Hrun3 & _ & _ & _ & Hv3).
  rewrite path_empty in Hbp, Hv3. rewrite path_empty, Hbp, Hrt, Hc, <- app_assoc in Hv2.
  exists (length (hitches s)), (length (hitches s1)), s2, (length (hitches s)), s3.
  split; [| split; [exact Hrun3 | split; [exact Hv2 | split; [exact Hv3 |]]]].
  - erewrite bind_Ok; [| exact Hrun1]. erewrite bind_Ok; [| exact Hrun2]. done.
  - intros Hb. rewrite Hv2, Hv3.
    by rewrite (trimTrailingSlash_id (trimTrailingSlash _)) by (by apply trimmed_no_slash).
Qed.

Lemma WithMiddleware_twice_witness :
  exists c1 c2 s2,
    (c1 <- WithMiddleware (H := doubling) 1 [Func (around "C" "C'")] ;;
     c2 <- WithMiddleware (H := doubling) c1 [Func (around "D" "D'")] ;;
     ret (c1, c2)) two_middleware_heap = Ok (c1, c2) s2
    /\ option_map f_middlewares (view s2 c2)
       = Some [Func (around "A" "A'"); Func (around "B" "B'");
               Func (around "C" "C'"); Func (around "D" "D'")].
Proof.
  destruct (WithMiddleware_twice (H := doubling) two_middleware_heap 1
              {| router := 0; basePath := "";
                 middlewares := {| s_arr := Some 0; s_len := 2; s_cap := 2 |} |}
              [Func (around "C" "C'")] [Func (around "D" "D'")] eq_refl eq_refl)
    as (c1 & c2 & s2 & _ & _ & Hrun & _ & Hv & _).
  exists c1, c2, s2. split; [exact Hrun |]. rewrite Hv. reflexivity.
Defined.

(** ** Registering through derived façades *)

Lemma Router_run s h hv : hitches s !! h = Some hv -> Router h s = Ok (router hv) s.
Proof. intros Hh. unfold Router, bind, deref. by rewrite Hh. Qed.

Lemma Handle_lookup `{httprouter.Engine} s h hv rv inst extra method p handler :
  wf s = true ->
  hitches s !! h = Some hv ->
  contents s (middlewares hv) = map Func inst ->
  routers s !! router hv = Some rv ->
  httprouter.accepts (routes rv) method (path hv p) = true ->
  exists s',
    Handle h method p handler (map Func extra) s = Ok tt s'
    /\ wf s' = true
    /\ hitches s' = hitches s
    /\ arrays s' = arrays s
    /\ routers s' !! router hv
       = Some {| HandleMethodNotAllowed := HandleMethodNotAllowed rv;
                 routes := routes rv ++
                   [{| route_method := method; route_path := path hv p;
                       route_handler := chain (inst ++ extra) handler |}] |}
    /\ (forall r', r' <> router hv -> routers s' !! r' = routers s !! r').
Proof.
  intros Hwf Hh Hc Hr Hacc.
  pose proof (Handle_run s h hv rv inst extra method p handler Hwf Hh Hc Hr Hacc)
    as Hrun.
  eexists. split; [exact Hrun |].
  assert (Hreg : registered s
            (set_routers s
               (<[router hv :=
                    {| HandleMethodNotAllowed := HandleMethodNotAllowed rv;
                       routes := routes rv ++
                         [{| route_method := method; route_path := path hv p;
                             route_handler := chain (inst ++ extra) handler |}] |}]>
                  (routers s)))
            (router hv)
            {| route_method := method; route_path := path hv p;
               route_handler := chain (inst ++ extra) handler |})
    by (by exists rv).
  destruct (registered_frame _ _ _ _ Hreg) as (H1 & H2 & _ & _ & H5).
  destruct (registered_lookup _ _ _ _ Hreg) as (rv' & Hr' & Hl).
  assert (rv' = rv) as -> by congruence.
  split; [by eapply registered_wf |]. by repeat split.
Qed.

(** X5: a sub-scope registers with the router of its parent, under the
    nested path and inside the middleware it inherited.  On a well-formed
    heap, after [c := h.SubPath(p)] and [c.GET(q, handler, extra...)], both
    [h.Router()] and [c.Router()] return the router of [h], whose routes
    are the ones it had followed by one for GET, at the base path of [c]
    joined with [q], with the handler wrapped by the middleware of [h]
    around [extra]; [h] itself is unchanged.  From the root, "/api" and
    "/items" give "/api/items". *)
Theorem SubPath_registers_with_parent `{httprouter.Engine}
    s h hv rv inst extra p q handler :
  wf s = true ->
  hitches s !! h = Some hv ->
  contents s (middlewares hv) = map Func inst ->
  routers s !! router hv = Some rv ->
  httprouter.accepts (routes rv) "GET"
    (trimTrailingSlash (path hv p) +:+ normalizeLeadingSlash q) = true ->
  exists c s',
    (c <- SubPath h p ;;
     GET c q handler (map Func extra) ;;;
     r1 <- Router h ;;
     r2 <- Router c ;;
     ret (c, r1, r2)) s = Ok (c, router hv, router hv) s'
    /\ routers s' !! router hv
       = Some {| HandleMethodNotAllowed := HandleMethodNotAllowed rv;
                 routes := routes rv ++
                   [{| route_method := "GET";
                       route_path :=
                         trimTrailingSlash (path hv p) +:+ normalizeLeadingSlash q;
                       route_handler := chain (inst ++ extra) handler |}] |}
    /\ view s' h = view s h
    /\ (basePath hv = "" -> p = "/api" -> q = "/items" ->
        trimTrailingSlash (path hv p) +:+ normalizeLeadingSlash q = "/api/items").
Proof.
  intros Hwf Hh Hc Hr Hacc.
  destruct (SubPath_spec s h hv p Hwf Hh)
    as (s1 & nv & Hrun1 & Hg1 & Hwf1 & Hr1 & Hnv & Hrt & Hbp & Hc1 & _).
  assert (Hpath : path nv q
            = trimTrailingSlash (path hv p) +:+ normalizeLeadingSlash q)
    by (by apply path_of_basePath).
  destruct (Handle_lookup s1 _ nv rv inst extra "GET" q handler Hwf1 Hnv)
    as (s2 & Hrun2 & Hwf2 & Hh2 & Ha2 & Hl2 & _).
  { by rewrite Hc1. } { by rewrite Hrt, Hr1. } { by rewrite Hpath. }
  assert (Hh1 : hitches s1 !! h = Some hv)
    by (destruct Hg1 as (Hp & _); by eapply prefix_lookup_Some).
  exists (length (hitches s)), s2. split; [| split; [| split]].
  - erewrite bind_Ok; [| exact Hrun1].
    erewrite bind_Ok; [| exact Hrun2].
    erewrite bind_Ok; [| apply Router_run; by rewrite Hh2].
    erewrite bind_Ok; [| apply Router_run; by rewrite Hh2]. by rewrite Hrt.
  - rewrite <- Hrt, Hl2. by rewrite Hpath.
  - rewrite (view_lookup s h hv Hh).
    assert (Hv1 : view s1 h
              = Some {| f_router := router hv; f_basePath := basePath hv;
                        f_middlewares := contents s (middlewares hv) |})
      by (apply (view_mono s s1); [done | done | by apply view_lookup]).
    unfold view in *. rewrite Hh2. rewrite Hh1 in *. unfold contents in *.
    by rewrite Ha2.
  - intros Hb -> ->. unfold path. by rewrite Hb.
Qed.

Lemma SubPath_registers_with_parent_witness :
  exists c s',
    (c <- SubPath 1 "/api" ;;
     GET (H := segment_engine) c "/items" (writes "h") [] ;;;
     r1 <- Router 1 ;;
     r2 <- Router c ;;
     ret (c, r1, r2)) two_middleware_heap = Ok (c, 0, 0) s'
    /\ option_map (fun rv => map route_path (routes rv)) (routers s' !! 0)
       = Some ["/api/items"].
Proof.
  destruct (SubPath_registers_with_parent (H := segment_engine)
              two_middleware_heap 1
              {| router := 0; basePath := "";
                 middlewares := {| s_arr := Some 0; s_len := 2; s_cap := 2 |} |}
              {| HandleMethodNotAllowed := false; routes := [] |}
              [around "A" "A'"; around "B" "B'"] [] "/api" "/items" (writes "h")
              eq_refl eq_refl eq_refl eq_refl eq_refl)
    as (c & s' & Hrun & Hl & _).
  exists c, s'. split; [exact Hrun |]. simpl in Hl. rewrite Hl. reflexivity.
Defined.

(** X6: per-call middleware stays with its call, and routes pile up in the
    order of the calls.  On a well-formed heap, a [Handle] with the
    per-call middleware [extra] followed by a [Handle] on the same façade
    without any leaves the router with its old routes, then the first
    route, wrapped by the middleware of the façade around [extra], then the
    second, wrapped by the middleware of the façade alone. *)
Theorem per_call_middleware_is_local `{httprouter.Engine}
    s h hv rv inst extra m1 p1 handler1 m2 p2 handler2 :
  wf s = true ->
  hitches s !! h = Some hv ->
  contents s (middlewares hv) = map Func inst ->
  routers s !! router hv = Some rv ->
  httprouter.accepts (routes rv) m1 (path hv p1) = true ->
  httprouter.accepts
    (routes rv ++ [{| route_method := m1; route_path := path hv p1;
                      route_handler := chain (inst ++ extra) handler1 |}])
    m2 (path hv p2) = true ->
  exists s',
    (Handle h m1 p1 handler1 (map Func extra) ;;;
     Handle h m2 p2 handler2 []) s = Ok tt s'
    /\ routers s' !! router hv
       = Some {| HandleMethodNotAllowed := HandleMethodNotAllowed rv;
                 routes := routes rv ++
                   [{| route_method := m1; route_path := path hv p1;
                       route_handler := chain (inst ++ extra) handler1 |};
                    {| route_method := m2; route_path := path hv p2;
                       route_handler := chain inst handler2 |}] |}
    /\ view s' h = view s h.
Proof.
  intros Hwf Hh Hc Hr Hacc1 Hacc2.
  destruct (Handle_lookup s h hv rv inst extra m1 p1 handler1 Hwf Hh Hc Hr Hacc1)
    as (s1 & Hrun1 & Hwf1 & Hh1 & Ha1 & Hl1 & _).
  destruct (Handle_lookup s1 h hv
              {| HandleMethodNotAllowed := HandleMethodNotAllowed rv;
                 routes := routes rv ++
                   [{| route_method := m1; route_path := path hv p1;
                       route_handler := chain (inst ++ extra) handler1 |}] |}
              inst [] m2 p2 handler2 Hwf1)
    as (s2 & Hrun2 & _ & Hh2 & Ha2 & Hl2 & _).
  { by rewrite Hh1. } { unfold contents in *. by rewrite Ha1. }
  { exact Hl1. } { exact Hacc2. }
  exists s2. split; [| split].
  - erewrite bind_Ok; [| exact Hrun1]. exact Hrun2.
  - rewrite Hl2. simpl. by rewrite <- app_assoc, app_nil_r.
  - unfold view, contents. by rewrite Hh2, Hh1, Ha2, Ha1.
Qed.

Lemma per_call_middleware_is_local_witness :
  exists s',
    (Handle (H := segment_engine) 1 "GET" "/x" (writes "x")
       [Func (around "C" "C'")] ;;;
     Handle (H := segment_engine) 1 "GET" "/y" (writes "y") [])
      two_middleware_heap = Ok tt s'
    /\ option_map (fun rv => map route_path (routes rv)) (routers s' !! 0)
       = Some ["/x"; "/y"].
Proof.
  destruct (per_call_middleware_is_local (H := segment_engine)
              two_middleware_heap 1
              {| router := 0; basePath := "";
                 middlewares := {| s_arr := Some 0; s_len := 2; s_cap := 2 |} |}
              {| HandleMethodNotAllowed := false; routes := [] |}
              [around "A" "A'"; around "B" "B'"] [around "C" "C'"]
              "GET" "/x" (writes "x") "GET" "/y" (writes "y")
              eq_refl eq_refl eq_refl eq_refl eq_refl eq_refl)
    as (s' & Hrun & Hl & _).
  exists s'. split; [exact Hrun |]. simpl in Hl. rewrite Hl. reflexivity.
Defined.

(** ** Nil middleware *)

Lemma has_nil_snoc ms m : has_nil (ms ++ [m]) = has_nil ms || is_nil m.
Proof. unfold has_nil. rewrite existsb_app. simpl. by rewrite orb_false_r. Qed.

Lemma has_nil_app ms ms' : has_nil (ms ++ ms') = has_nil ms || has_nil ms'.
Proof. apply existsb_app. Qed.

(** The first loop of [Handle] on any list: it stops at the last nil func,
    and runs to its end when there is none. *)
Lemma wrap_args_outcome middleware n handler s :
  n <= length middleware ->
  if has_nil (take n middleware)
  then wrap_args middleware n handler s = Panic NilFuncCall
  else exists fs, take n middleware = map Func fs
         /\ wrap_args middleware n handler s = Ok (chain fs handler) s.
Proof.
  revert handler. induction n as [|i IH]; intros handler Hn.
  - simpl. by exists [].
  - destruct (lookup_lt_is_Some_2 middleware i) as [m Hm]; [lia |].
    rewrite (take_S_r middleware i m Hm), has_nil_snoc.
    assert (Hstep : wrap_args middleware (S i) handler s
              = match m with
                | nilFunc => Panic NilFuncCall
                | Func f => wrap_args middleware i (f handler) s
                end).
    { simpl. unfold index_arg, bind. rewrite Hm. by destruct m. }
    rewrite Hstep. destruct m as [|f]; simpl.
    + by rewrite orb_true_r.
    + rewrite orb_false_r. specialize (IH (f handler)).
      destruct (has_nil (take i middleware)); [apply IH; lia |].
      destruct IH as (fs & Hfs & Hrun); [lia |].
      exists (fs ++ [f]). split; [by rewrite Hfs, map_app |].
      by rewrite Hrun, chain_snoc.
Qed.

(** The second loop of [Handle] is the first one on the elements of the
    façade's slice. *)
Lemma wrap_own_as_args s h hv n handler :
  hitches s !! h = Some hv ->
  wf_slice s (middlewares hv) = true ->
  n <= s_len (middlewares hv) ->
  wrap_own h n handler s = wrap_args (contents s (middlewares hv)) n handler s.
Proof.
  intros Hh Hsl. revert handler. induction n as [|i IH]; intros handler Hn; [done |].
  destruct (lookup_lt_is_Some_2 (contents s (middlewares hv)) i) as [m Hm].
  { rewrite contents_length by done. lia. }
  simpl. erewrite bind_Ok; [| unfold deref; by rewrite Hh].
  erewrite bind_Ok; [| by apply index_run].
  unfold index_arg. rewrite Hm.
  destruct m as [|f]; unfold bind, ret, call, throw; [done |]. apply IH. lia.
Qed.

Lemma Handle_nil_panics `{httprouter.Engine} s h hv method p handler extra :
  wf s = true ->
  hitches s !! h = Some hv ->
  has_nil extra || has_nil (contents s (middlewares hv)) = true ->
  Handle h method p handler extra s = Panic NilFuncCall.
Proof.
  intros Hwf Hh Hnil.
  pose proof (wf_lookup s h hv Hwf Hh) as [Hsl _]%andb_prop.
  pose proof (wrap_args_outcome extra (length extra) handler s (le_n _)) as H1.
  rewrite firstn_all in H1. unfold Handle.
  destruct (has_nil extra); [unfold bind at 1; by rewrite H1 |].
  destruct H1 as (fs & _ & H1). simpl in Hnil.
  erewrite bind_Ok; [| exact H1].
  erewrite bind_Ok; [| unfold deref; by rewrite Hh].
  pose proof (wrap_args_outcome (contents s (middlewares hv))
                (s_len (middlewares hv)) (chain fs handler) s) as H2.
  rewrite <- (contents_length s (middlewares hv)) in H2 at 2 by done.
  rewrite firstn_all, Hnil in H2.
  unfold bind at 1, len. rewrite (wrap_own_as_args s h hv) by done.
  rewrite H2; [done |]. by rewrite contents_length.
Qed.

(** X7: nil middleware is caught by [Handle], not by [WithMiddleware].  On
    a well-formed heap, [Handle] panics on the call of a nil func whenever
    the per-call middleware or the list of the façade holds a nil value;
    [WithMiddleware] of a list that holds one returns all the same, and
    every [Handle] on the façade it returns panics. *)
Theorem nil_middleware_panics_in_Handle `{Runtime} `{httprouter.Engine} s h hv :
  wf s = true ->
  hitches s !! h = Some hv ->
  (forall method p handler extra,
      has_nil extra || has_nil (contents s (middlewares hv)) = true ->
      Handle h method p handler extra s = Panic NilFuncCall)
  /\ (forall middleware,
        has_nil middleware = true ->
        exists c s',
          WithMiddleware h middleware s = Ok c s'
          /\ forall method p handler extra,
               Handle c method p handler extra s' = Panic NilFuncCall).
Proof.
  intros Hwf Hh. split.
  - intros method p handler extra. by apply Handle_nil_panics.
  - intros mw Hnil.
    destruct (WithMiddleware_spec s h hv mw Hwf Hh) as (s' & Hrun & _ & Hwf' & _ & Hv).
    destruct (view_Some_inv _ _ _ Hv) as (nv & Hnv & _ & _ & Hc). simpl in Hc.
    eexists _, s'. split; [exact Hrun |]. intros method p handler extra.
    apply (Handle_nil_panics s' _ nv); [done | done |].
    by rewrite Hc, has_nil_app, Hnil, !orb_true_r.
Qed.

Lemma nil_middleware_panics_in_Handle_witness :
  exists c s',
    WithMiddleware (H := doubling) 1 [Func (around "C" "C'"); nilFunc]
      two_middleware_heap = Ok c s'
    /\ Handle (H := segment_engine) c "GET" "/x" (writes "h") [] s'
       = Panic NilFuncCall.
Proof.
  destruct (proj2 (@nil_middleware_panics_in_Handle doubling segment_engine
              two_middleware_heap 1
              {| router := 0; basePath := "";
                 middlewares := {| s_arr := Some 0; s_len := 2; s_cap := 2 |} |}
              eq_refl eq_refl)
            [Func (around "C" "C'"); nilFunc] eq_refl)
    as (c & s' & Hrun & Hpanic).
  exists c, s'. split; [exact Hrun | apply Hpanic].
Defined.

(** ** What no call of the package does *)

Lemma run_op_grows `{Runtime} `{httprouter.Engine} o s s' :
  wf s = true -> run_op o s = Ok tt s' -> grows s s'.
Proof.
  intros Hwf. destruct o as [|h p|h mw|h handler|f h p handler mw]; simpl.
  - intros (a & s1 & H1 & [= <-])%bind_inv. rewrite New_run in H1.
    injection H1 as _ <-.
    repeat split; simpl; [by apply prefix_app_r | done | rewrite length_app; lia].
  - intros (a & s1 & H1 & [= <-])%bind_inv.
    destruct (SubPath_receiver _ _ _ _ _ H1) as [hv Hh].
    destruct (SubPath_spec s h hv p Hwf Hh) as (s2 & nv & Hrun & Hg & _).
    congruence.
  - intros (a & s1 & H1 & [= <-])%bind_inv.
    destruct (WithMiddleware_receiver _ _ _ _ _ H1) as [hv Hh].
    destruct (WithMiddleware_spec s h hv mw Hwf Hh) as (s2 & Hrun & Hg & _).
    congruence.
  - intros (a & s1 & H1 & [= <-])%bind_inv.
    destruct (WithMiddleware_receiver _ _ _ _ _ H1) as [hv Hh].
    destruct (WithMiddleware_spec s h hv [handlerMiddleware handler] Hwf Hh)
      as (s2 & Hrun & Hg & _).
    unfold WithHandlerMiddleware in H1. congruence.
  - rewrite register_Handle. intros (hv & wrapped & _ & Hreg)%Handle_inv.
    destruct (registered_frame _ _ _ _ Hreg) as (Hh & Ha & Hl & _).
    repeat split; [by rewrite Hh | by rewrite Ha | by rewrite Hl].
Qed.

(** X8: a façade, once made, never changes.  Whatever calls of the package
    follow on a well-formed heap (constructions, derivations, attachments,
    registrations in any form, on this façade or on others), a [Hitch] that
    was there is still there with the same router, base path and slice,
    and its list has the same elements. *)
Theorem facades_never_change `{Runtime} `{httprouter.Engine} os s s' h hv :
  wf s = true ->
  run_ops os s = Ok tt s' ->
  hitches s !! h = Some hv ->
  hitches s' !! h = Some hv
  /\ contents s' (middlewares hv) = contents s (middlewares hv)
  /\ view s' h = view s h.
Proof.
  intros Hwf Hrun Hh.
  assert (Hg : grows s s' /\ wf s' = true).
  { revert s Hwf Hrun Hh. induction os as [|o os IH]; intros s Hwf; simpl.
    - intros [= <-] _. split; [repeat split; done | done].
    - intros ([] & s1 & H1 & H2)%bind_inv Hh.
      pose proof (run_op_grows o s s1 Hwf H1) as Hg1.
      pose proof (run_op_wf o s s1 Hwf H1) as Hwf1.
      destruct (IH s1 Hwf1 H2) as [Hg2 Hwf2].
      { destruct Hg1 as (Hp & _). by eapply prefix_lookup_Some. }
      split; [by eapply grows_trans | done]. }
  destruct Hg as [Hg _].
  pose proof (wf_lookup s h hv Hwf Hh) as [Hsl _]%andb_prop.
  split; [destruct Hg as (Hp & _); by eapply prefix_lookup_Some |].
  split; [apply contents_mono; [apply Hg | done] |].
  rewrite (view_lookup s h hv Hh).
  apply (view_mono s s'); [done | done | by apply view_lookup].
Qed.

Lemma facades_never_change_witness :
  exists s',
    run_ops (H := doubling) (H0 := segment_engine)
      [DoWithMiddleware 1 [Func (around "C" "C'")];
       DoSubPath 1 "/api";
       DoRegister ByGET 2 "/x" (writes "h") [Func (around "D" "D'")];
       DoNew]
      two_middleware_heap = Ok tt s'
    /\ view s' 1 = view two_middleware_heap 1.
Proof.
  eexists.
  match goal with
  | |- ?run = Ok tt ?s /\ _ =>
      assert (Hrun : run = Ok tt s) by (vm_compute; reflexivity)
  end.
  split; [exact Hrun |].
  exact (proj2 (proj2 (@facades_never_change doubling segment_engine _
           two_middleware_heap _ 1
           {| router := 0; basePath := "";
              middlewares := {| s_arr := Some 0; s_len := 2; s_cap := 2 |} |}
           eq_refl Hrun eq_refl))).
Defined.

Lemma router_extends_refl rv : router_extends rv rv.
Proof. split; done. Qed.

Lemma router_extends_trans rv1 rv2 rv3 :
  router_extends rv1 rv2 -> router_extends rv2 rv3 -> router_extends rv1 rv3.
Proof. intros [H1 H2] [K1 K2]. split; [congruence | by etrans]. Qed.

Lemma run_op_router_extends `{Runtime} `{httprouter.Engine} o s s' r rv :
  run_op o s = Ok tt s' ->
  routers s !! r = Some rv ->
  exists rv', routers s' !! r = Some rv' /\ router_extends rv rv'.
Proof.
  intros Hrun Hr.
  assert (Hkeep : routers s' = routers s ->
            exists rv', routers s' !! r = Some rv' /\ router_extends rv rv').
  { intros ->. exists rv. split; [done | apply router_extends_refl]. }
  destruct o as [|h p|h mw|h handler|f h p handler mw]; simpl in Hrun.
  - apply bind_inv in Hrun as (a & s1 & H1 & [= <-]).
    rewrite New_run in H1. injection H1 as _ <-. exists rv.
    split; [| apply router_extends_refl].
    simpl. rewrite lookup_app_l; [done | by eapply lookup_lt_Some].
  - apply bind_inv in Hrun as (a & s1 & H1 & [= <-]).
    apply Hkeep. by eapply keeps_SubPath.
  - apply bind_inv in Hrun as (a & s1 & H1 & [= <-]).
    apply Hkeep. by eapply keeps_WithMiddleware.
  - apply bind_inv in Hrun as (a & s1 & H1 & [= <-]).
    apply Hkeep. by eapply keeps_WithMiddleware.
  - rewrite register_Handle in Hrun.
    apply Handle_inv in Hrun as (hv & wrapped & _ & Hreg).
    destruct (decide (r = router hv)) as [-> | Hne].
    + destruct (registered_lookup _ _ _ _ Hreg) as (rv' & Hr' & Hr'').
      assert (rv' = rv) as -> by congruence.
      eexists. split; [exact Hr'' |]. split; [done | by apply prefix_app_r].
    + destruct (registered_frame _ _ _ _ Hreg) as (_ & _ & _ & _ & Ho).
      exists rv. rewrite Ho by done. split; [done | apply router_extends_refl].
Qed.

(** X9: the package only ever adds routes.  Whatever calls follow, on any
    heap, a router that was there is still there with the flag it had, and
    its routes are the ones it had, in their order and with their handlers,
    possibly followed by new ones: no call removes, replaces or reorders a
    route or touches the flag of an existing router. *)
Theorem routers_only_grow `{Runtime} `{httprouter.Engine} os s s' r rv :
  run_ops os s = Ok tt s' ->
  routers s !! r = Some rv ->
  exists rv',
    routers s' !! r = Some rv'
    /\ HandleMethodNotAllowed rv' = HandleMethodNotAllowed rv
    /\ routes rv `prefix_of` routes rv'.
Proof.
  revert s rv. induction os as [|o os IH]; intros s rv; simpl.
  - intros [= <-] Hr. exists rv. by repeat split.
  - intros ([] & s1 & H1 & H2)%bind_inv Hr.
    destruct (run_op_router_extends o s s1 r rv H1 Hr) as (rv1 & Hr1 & He1).
    destruct (IH s1 rv1 H2 Hr1) as (rv2 & Hr2 & Hf2 & Hp2).
    exists rv2. split; [done |].
    by apply (router_extends_trans rv rv1 rv2).
Qed.

Lemma routers_only_grow_witness :
  exists s' rv',
    run_ops (H := doubling) (H0 := segment_engine)
      [DoRegister ByGET 1 "/x" (writes "x") [];
       DoSubPath 1 "/api";
       DoRegister ByPUT 2 "/y" (writes "y") []]
      two_middleware_heap = Ok tt s'
    /\ routers s' !! 0 = Some rv'
    /\ HandleMethodNotAllowed rv' = false.
Proof.
  eexists.
  match goal with
  | |- exists rv, ?run = Ok tt ?s /\ _ =>
      assert (Hrun : run = Ok tt s) by (vm_compute; reflexivity)
  end.
  destruct (@routers_only_grow doubling segment_engine _ two_middleware_heap _ 0
              {| HandleMethodNotAllowed := false; routes := [] |}
              Hrun eq_refl)
    as (rv' & Hr & Hf & _).
  exists rv'. split; [exact Hrun |]. split; [exact Hr | exact Hf].
Defined.

(** ** Paths start at the root *)

Lemma rooted_normalised p : rooted (normalizeLeadingSlash p) = true.
Proof.
  destruct p as [|c p]; [done |]. unfold rooted.
  rewrite HasPrefix_slash, normalizeLeadingSlash_slash by done.
  apply orb_true_r.
Qed.

Lemma path_rooted hv p : rooted (basePath hv) = true -> rooted (path hv p) = true.
Proof.
  rewrite path_eq. destruct (basePath hv) as [|c b]; [intros _; apply rooted_normalised |].
  unfold rooted at 1. rewrite HasPrefix_slash. simpl.
  destruct (Ascii.eqb_spec c "/") as [-> | Hne]; [intros _ | done].
  destruct b as [|c' b']; [apply rooted_normalised |].
  change (trimTrailingSlash (String "/" (String c' b')))
    with (String "/" (trimTrailingSlash (String c' b'))).
  rewrite str_app_cons. unfold rooted. by rewrite HasPrefix_slash.
Qed.

Lemma forallb_Forall {A} (f : A -> bool) l :
  forallb f l = true <-> Forall (fun x => f x = true) l.
Proof.
  induction l as [|x l IH]; simpl; [by split |].
  rewrite andb_true_iff, Forall_cons, IH. done.
Qed.

Lemma paths_rooted_iff s :
  paths_rooted s = true
  <-> Forall (fun hv => rooted (basePath hv) = true) (hitches s)
      /\ Forall (fun rv =>
                  Forall (fun rt => rooted (route_path rt) = true) (routes rv))
           (routers s).
Proof.
  unfold paths_rooted. rewrite andb_true_iff, !forallb_Forall.
  split; intros [H1 H2]; (split; [done |]);
    eapply Forall_impl; try exact H2; intros rv; by rewrite forallb_Forall.
Qed.

Lemma run_op_paths_rooted `{Runtime} `{httprouter.Engine} o s s' :
  wf s = true -> paths_rooted s = true ->
  run_op o s = Ok tt s' -> paths_rooted s' = true.
Proof.
  intros Hwf [Hhs Hrs]%paths_rooted_iff Hrun. apply paths_rooted_iff.
  assert (Hbase : forall h hv, hitches s !! h = Some hv -> rooted (basePath hv) = true)
    by (intros h hv Hh; by eapply (Forall_lookup_1 _ _ _ _ Hhs)).
  destruct o as [|h p|h mw|h handler|f h p handler mw]; simpl in Hrun.
  - apply bind_inv in Hrun as (a & s1 & H1 & [= <-]).
    rewrite New_run in H1. injection H1 as _ <-. simpl. split.
    + apply Forall_app. split; [done |]. by apply Forall_singleton.
    + apply Forall_app. split; [done |]. apply Forall_singleton. by simpl.
  - apply bind_inv in Hrun as (a & s1 & H1 & [= <-]).
    destruct (SubPath_receiver _ _ _ _ _ H1) as [hv Hh].
    destruct (SubPath_run s h hv p Hwf Hh) as (sl' & s2 & Hrun2 & Hh2 & _ & Hr2 & _).
    assert (s1 = s2) as -> by congruence. rewrite Hh2, Hr2. split; [| done].
    apply Forall_app. split; [done |]. apply Forall_singleton. simpl.
    apply path_rooted. by eapply Hbase.
  - apply bind_inv in Hrun as (a & s1 & H1 & [= <-]).
    destruct (WithMiddleware_receiver _ _ _ _ _ H1) as [hv Hh].
    destruct (WithMiddleware_run s h hv mw Hwf Hh)
      as (sl' & s2 & Hrun2 & Hh2 & _ & Hr2 & _).
    assert (s1 = s2) as -> by congruence. rewrite Hh2, Hr2. split; [| done].
    apply Forall_app. split; [done |]. apply Forall_singleton. simpl.
    apply path_rooted. by eapply Hbase.
  - apply bind_inv in Hrun as (a & s1 & H1 & [= <-]).
    destruct (WithMiddleware_receiver _ _ _ _ _ H1) as [hv Hh].
    destruct (WithMiddleware_run s h hv [handlerMiddleware handler] Hwf Hh)
      as (sl' & s2 & Hrun2 & Hh2 & _ & Hr2 & _).
    unfold WithHandlerMiddleware in H1.
    assert (s1 = s2) as -> by congruence. rewrite Hh2, Hr2. split; [| done].
    apply Forall_app. split; [done |]. apply Forall_singleton. simpl.
    apply path_rooted. by eapply Hbase.
  - rewrite register_Handle in Hrun.
    apply Handle_inv in Hrun as (hv & wrapped & Hh & (rv & Hr & ->)).
    simpl. split; [done |]. apply Forall_insert; [done |]. simpl.
    apply Forall_app. split; [by eapply (Forall_lookup_1 _ _ _ _ Hrs) |].
    apply Forall_singleton. simpl. apply path_rooted. by eapply Hbase.
Qed.

(** X10: every path the package makes starts at the root.  In a heap built
    from nothing by calls of the package, the base path of each façade and
    the path of each registered route is empty or starts with a slash,
    whatever segments the calls were given. *)
Theorem reachable_paths_rooted `{Runtime} `{httprouter.Engine} os s :
  run_ops os empty_heap = Ok tt s ->
  paths_rooted s = true
  /\ (forall h hv, hitches s !! h = Some hv -> rooted (basePath hv) = true)
  /\ (forall r rv rt, routers s !! r = Some rv -> rt ∈ routes rv ->
        rooted (route_path rt) = true).
Proof.
  intros Hrun.
  assert (Hgen : forall s0, wf s0 = true -> paths_rooted s0 = true ->
            run_ops os s0 = Ok tt s -> paths_rooted s = true).
  { clear Hrun. induction os as [|o os IH]; intros s0 Hwf Hp; simpl.
    - by intros [= <-].
    - intros ([] & s1 & H1 & H2)%bind_inv.
      eapply (IH s1); [by eapply run_op_wf | by eapply run_op_paths_rooted | done]. }
  pose proof (Hgen empty_heap eq_refl eq_refl Hrun) as Hp.
  split; [done |]. apply paths_rooted_iff in Hp as [Hhs Hrs]. split.
  - intros h hv Hh. by eapply (Forall_lookup_1 _ _ _ _ Hhs).
  - intros r rv rt Hr Hrt.
    pose proof (Forall_lookup_1 _ _ _ _ Hrs Hr) as Hall.
    by eapply (proj1 (Forall_forall _ _) Hall).
Qed.

Lemma reachable_paths_rooted_witness :
  exists s,
    run_ops (H := doubling) (H0 := segment_engine) sample_ops empty_heap = Ok tt s
    /\ map basePath (hitches s) = [""; ""; "/api/"; "/api"; ""]
    /\ paths_rooted s = true.
Proof.
  eexists.
  match goal with
  | |- ?run = Ok tt ?s /\ _ =>
      assert (Hrun : run = Ok tt s) by (vm_compute; reflexivity)
  end.
  split; [exact Hrun |]. split; [vm_compute; reflexivity |].
  exact (proj1 (@reachable_paths_rooted doubling segment_engine sample_ops _ Hrun)).
Defined.

(** ** Separate roots *)

(** X11: two roots share nothing.  On a well-formed heap, two calls of
    [New] return façades whose [Router()] results differ; a [Handle] on the
    first, with no middleware, gives its router exactly one route, for the
    method given, at the segment with its leading slash (the empty path for
    the empty segment) and with the handler itself, unwrapped; the router
    of the second still has no route. *)
Theorem separate_roots `{httprouter.Engine} s method p handler :
  wf s = true ->
  httprouter.accepts [] method (normalizeLeadingSlash p) = true ->
  exists root1 root2 s',
    (root1 <- New ;;
     root2 <- New ;;
     Handle root1 method p handler [] ;;;
     r1 <- Router root1 ;;
     r2 <- Router root2 ;;
     ret (root1, root2, r1, r2)) s
    = Ok (root1, root2, length (routers s), S (length (routers s))) s'
    /\ root1 <> root2
    /\ routers s' !! length (routers s)
       = Some {| HandleMethodNotAllowed := false;
                 routes := [{| route_method := method;
                               route_path := normalizeLeadingSlash p;
                               route_handler := handler |}] |}
    /\ routers s' !! S (length (routers s))
       = Some {| HandleMethodNotAllowed := false; routes := [] |}.
Proof.
  intros Hwf Hacc.
  set (h1 := {| router := length (routers s); basePath := "";
                middlewares := nil_slice |}).
  set (h2 := {| router := S (length (routers s)); basePath := "";
                middlewares := nil_slice |}).
  set (empty := {| HandleMethodNotAllowed := false; routes := [] |}).
  set (s1 := {| hitches := hitches s ++ [h1]; arrays := arrays s;
                routers := routers s ++ [empty] |}).
  set (s2 := {| hitches := (hitches s ++ [h1]) ++ [h2]; arrays := arrays s;
                routers := (routers s ++ [empty]) ++ [empty] |}).
  assert (Hn1 : New s = Ok (length (hitches s)) s1) by apply New_run.
  assert (Hn2 : New s1 = Ok (S (length (hitches s))) s2).
  { rewrite New_run. unfold s1, s2, h2. simpl. rewrite !length_app. simpl.
    by rewrite !Nat.add_1_r. }
  assert (Hwf2 : wf s2 = true)
    by (eapply New_wf; [| exact Hn2]; by eapply New_wf).
  assert (Hh1 : hitches s2 !! length (hitches s) = Some h1).
  { simpl. rewrite lookup_app_l by (rewrite length_app; simpl; lia).
    by apply list_lookup_middle. }
  assert (Hh2 : hitches s2 !! S (length (hitches s)) = Some h2).
  { simpl. apply list_lookup_middle. rewrite length_app. simpl. lia. }
  assert (Hr1 : routers s2 !! length (routers s) = Some empty).
  { simpl. rewrite lookup_app_l by (rewrite length_app; simpl; lia).
    by apply list_lookup_middle. }
  assert (Hr2 : routers s2 !! S (length (routers s)) = Some empty).
  { simpl. apply list_lookup_middle. rewrite length_app. simpl. lia. }
  assert (Hpath : path h1 p = normalizeLeadingSlash p) by (by rewrite path_eq).
  destruct (Handle_lookup s2 _ h1 empty [] [] method p handler Hwf2 Hh1)
    as (s3 & Hrun & _ & Hh3 & _ & Hl & Ho); [done | exact Hr1 | by rewrite Hpath |].
  rewrite Hpath in Hl. simpl in Hl.
  exists (length (hitches s)), (S (length (hitches s))), s3.
  split; [| split; [lia | split; [exact Hl |]]].
  - erewrite bind_Ok; [| exact Hn1]. erewrite bind_Ok; [| exact Hn2].
    erewrite bind_Ok; [| exact Hrun].
    erewrite bind_Ok; [| apply Router_run; rewrite Hh3; exact Hh1].
    erewrite bind_Ok; [| apply Router_run; rewrite Hh3; exact Hh2]. done.
  - rewrite (Ho (S (length (routers s)))); [exact Hr2 | simpl; lia].
Qed.

Lemma separate_roots_witness :
  exists root1 root2 s',
    (root1 <- New (H := segment_engine) ;;
     root2 <- New (H := segment_engine) ;;
     Handle (H := segment_engine) root1 "GET" "ping" (writes "pong") [] ;;;
     r1 <- Router root1 ;;
     r2 <- Router root2 ;;
     ret (root1, root2, r1, r2)) empty_heap = Ok (root1, root2, 0, 1) s'
    /\ option_map (fun rv => map route_path (routes rv)) (routers s' !! 0)
       = Some ["/ping"]
    /\ option_map (fun rv => map route_path (routes rv)) (routers s' !! 1)
       = Some [].
Proof.
  destruct (separate_roots (H := segment_engine) empty_heap "GET" "ping"
              (writes "pong") eq_refl eq_refl)
    as (root1 & root2 & s' & Hrun & _ & Hl1 & Hl2).
  exists root1, root2, s'. split; [exact Hrun |].
  simpl in Hl1, Hl2. rewrite Hl1, Hl2. split; reflexivity.
Defined.

(** ** Several handler adapters *)

Lemma appends_then first next t1 t2 :
  appends first t1 -> appends next t2 ->
  appends (fun w req => ServeHTTP first w req ;;; ServeHTTP next w req) (t1 ++ t2).
Proof.
  intros H1 H2 w req world chunks Hw.
  assert (Hlt : w < length (responses world)) by (by eapply lookup_lt_Some).
  unfold ServeHTTP at 1.
  erewrite bind_Ok; [| by apply H1].
  erewrite H2; [| simpl; by apply list_lookup_insert_eq].
  simpl. by rewrite list_insert_insert_eq, <- app_assoc.
Qed.

(** X12: handlers attached one after the other run in that order.  On a
    well-formed heap, after [h.WithHandlerMiddleware(first)], then
    [WithHandlerMiddleware(second)] on the result, then [Handle] on that
    with no per-call middleware, the router of [h] has one more route
    whose handler is the middleware of [h] around a handler that runs
    [first], then [second], then the handler registered, each on the same
    writer and request in the world the one before left; what they write
    comes in this order.  [h] is unchanged. *)
Theorem handler_middlewares_in_order `{Runtime} `{httprouter.Engine}
    s h hv rv inst first second method p handler :
  wf s = true ->
  hitches s !! h = Some hv ->
  contents s (middlewares hv) = map Func inst ->
  routers s !! router hv = Some rv ->
  httprouter.accepts (routes rv) method
    (trimTrailingSlash (trimTrailingSlash (trimTrailingSlash (basePath hv)))
     +:+ normalizeLeadingSlash p) = true ->
  exists s' g,
    (c1 <- WithHandlerMiddleware h first ;;
     c2 <- WithHandlerMiddleware c1 second ;;
     Handle c2 method p handler []) s = Ok tt s'
    /\ routers s' !! router hv
       = Some {| HandleMethodNotAllowed := HandleMethodNotAllowed rv;
                 routes := routes rv ++
                   [{| route_method := method;
                       route_path :=
                         trimTrailingSlash
                           (trimTrailingSlash (trimTrailingSlash (basePath hv)))
                         +:+ normalizeLeadingSlash p;
                       route_handler := chain inst g |}] |}
    /\ (forall w req world,
          ServeHTTP g w req world
          = (ServeHTTP first w req ;;;
             ServeHTTP second w req ;;;
             ServeHTTP handler w req) world)
    /\ (forall t1 t2 t3,
          appends first t1 -> appends second t2 -> appends handler t3 ->
          appends g (t1 ++ t2 ++ t3))
    /\ view s' h = view s h.
Proof.
  intros Hwf Hh Hc Hr Hacc.
  destruct (WithMiddleware_spec s h hv [handlerMiddleware first] Hwf Hh)
    as (s1 & Hrun1 & Hg1 & Hwf1 & Hr1 & Hv1).
  destruct (view_Some_inv _ _ _ Hv1) as (nv1 & Hnv1 & Hrt1 & Hbp1 & Hc1).
  simpl in Hrt1, Hbp1, Hc1.
  destruct (WithMiddleware_spec s1 _ nv1 [handlerMiddleware second] Hwf1 Hnv1)
    as (s2 & Hrun2 & Hg2 & Hwf2 & Hr2 & Hv2).
  destruct (view_Some_inv _ _ _ Hv2) as (nv2 & Hnv2 & Hrt2 & Hbp2 & Hc2).
  simpl in Hrt2, Hbp2, Hc2.
  rewrite path_empty in Hbp1, Hbp2. rewrite Hbp1 in Hbp2.
  assert (Hpath : path nv2 p
            = trimTrailingSlash
                (trimTrailingSlash (trimTrailingSlash (basePath hv)))
              +:+ normalizeLeadingSlash p)
    by (by apply path_of_basePath).
  set (g1 := fun next : Handler =>
               fun w req => ServeHTTP first w req ;;; ServeHTTP next w req).
  set (g2 := fun next : Handler =>
               fun w req => ServeHTTP second w req ;;; ServeHTTP next w req).
  destruct (Handle_lookup s2 _ nv2 rv (inst ++ [g1; g2]) [] method p handler
              Hwf2 Hnv2)
    as (s3 & Hrun3 & _ & Hh3 & Ha3 & Hl3 & _).
  { rewrite Hc2, Hc1, Hc, <- app_assoc, map_app. reflexivity. }
  { by rewrite Hrt2, Hrt1, Hr2, Hr1. }
  { by rewrite Hpath. }
  exists s3, (g1 (g2 handler)). split; [| split; [| split; [| split]]].
  - unfold WithHandlerMiddleware.
    erewrite bind_Ok; [| exact Hrun1]. erewrite bind_Ok; [| exact Hrun2].
    exact Hrun3.
  - rewrite Hrt2, Hrt1, Hpath in Hl3. rewrite Hl3. do 4 f_equal.
    by rewrite app_nil_r, chain_app.
  - done.
  - intros t1 t2 t3 H1 H2 H3. apply appends_then; [done |].
    by apply (appends_then second handler).
  - assert (Hv : view s2 h = view s h).
    { rewrite (view_lookup s h hv Hh).
      apply (view_mono s s2);
        [done | by eapply grows_trans | by apply view_lookup]. }
    rewrite <- Hv. unfold view, contents. by rewrite Hh3, Ha3.
Qed.

Lemma handler_middlewares_in_order_witness :
  exists s' g,
    (c1 <- WithHandlerMiddleware (H := doubling) 1 (writes "first") ;;
     c2 <- WithHandlerMiddleware (H := doubling) c1 (writes "second") ;;
     Handle (H := segment_engine) c2 "GET" "/x" (writes "h") [])
      two_middleware_heap = Ok tt s'
    /\ appends g ["first"; "second"; "h"].
Proof.
  destruct (@handler_middlewares_in_order doubling segment_engine
              two_middleware_heap 1
              {| router := 0; basePath := "";
                 middlewares := {| s_arr := Some 0; s_len := 2; s_cap := 2 |} |}
              {| HandleMethodNotAllowed := false; routes := [] |}
              [around "A" "A'"; around "B" "B'"]
              (writes "first") (writes "second") "GET" "/x" (writes "h")
              eq_refl eq_refl eq_refl eq_refl eq_refl)
    as (s' & g & Hrun & _ & _ & Hord & _).
  exists s', g. split; [exact Hrun |].
  exact (Hord ["first"] ["second"] ["h"] (writes_appends "first")
           (writes_appends "second") (writes_appends "h")).
Defined.
